(** * tg_notify: the Telegram notifier script, embedded and verified

    A shallow embedding of [scripts/tg_notify.py].  The script reads its
    configuration from the process environment and from [sys.argv], picks the
    first file matching [output/*.zip], formats an HTML caption and performs
    one multipart POST to the Telegram Bot API.

    Layout of the development:
    - [PyStr]: Python [str] values as lists of Unicode code points, with the
      string operations the script uses ([strip], [basename], [str(int)]);
    - [PyFloat]: the two float operations of the script, true division and
      the [.2f] format, on exact dyadic values;
    - [Py]: exceptions, the trace of observable actions, and a small
      state-and-exception monad with [try]/[except] and [with];
    - [send_telegram_file]: the function itself, statement by statement;
    - the properties. *)

From Stdlib Require Import ZArith NArith Lia String Ascii.
From Stdlib Require Floats.SpecFloat.
From stdpp Require Import base option list gmap.

#[local] Open Scope Z_scope.

(** ** Python strings *)

Module PyStr.

(** A Python [str] is a sequence of Unicode code points. *)
Abbreviation str := (list N).

(** Source literals are written as in the script (UTF-8 in this file) and
    decoded to code points.  [utf8_go bs acc k] decodes [bs] with [k]
    continuation bytes still expected for the code point accumulated in
    [acc]. *)
Fixpoint utf8_go (bs : list N) (acc : N) (k : nat) : str :=
  match bs with
  | [] => []
  | b :: bs' =>
      match k with
      | O =>
          if (b <? 128)%N then b :: utf8_go bs' 0%N O
          else if (b <? 224)%N then utf8_go bs' (N.land b 31) 1%nat
          else if (b <? 240)%N then utf8_go bs' (N.land b 15) 2%nat
          else utf8_go bs' (N.land b 7) 3%nat
      | S k' =>
          let acc' := N.lor (N.shiftl acc 6) (N.land b 63) in
          match k' with
          | O => acc' :: utf8_go bs' 0%N O
          | S _ => utf8_go bs' acc' k'
          end
      end
  end.

Definition u (s : string) : str :=
  utf8_go (List.map N_of_ascii (list_ascii_of_string s)) 0%N O.

Definition str_eqb (a b : str) : bool := bool_decide (a = b).

(** [t in s] *)
Definition contains (t s : str) : Prop := ∃ a b, s = a ++ t ++ b.

(** [s.startswith(t)] *)
Fixpoint startswith (t s : str) : bool :=
  match t, s with
  | [], _ => true
  | c :: t', d :: s' => (c =? d)%N && startswith t' s'
  | _ :: _, [] => false
  end.

(** Code points for which [str.isspace] holds; these are the ones
    [str.strip()] removes (CPython's [_PyUnicode_IsWhitespace]). *)
Definition isspace (c : N) : bool :=
  ((9 <=? c) && (c <=? 13) || (28 <=? c) && (c <=? 32)
   || (c =? 133) || (c =? 160) || (c =? 5760)
   || (8192 <=? c) && (c <=? 8202)
   || (c =? 8232) || (c =? 8233) || (c =? 8239) || (c =? 8287)
   || (c =? 12288))%N.

Fixpoint drop_while (p : N → bool) (s : str) : str :=
  match s with
  | [] => []
  | c :: s' => if p c then drop_while p s' else s
  end.

Definition lstrip (s : str) : str := drop_while isspace s.
Definition rstrip (s : str) : str := reverse (drop_while isspace (reverse s)).

(** [s.strip()] *)
Definition strip (s : str) : str := rstrip (lstrip s).

(** [posixpath.basename]: [p[p.rfind('/') + 1:]], the part after the last
    slash (the whole of [p] when there is none). *)
Definition slash : N := 47%N.

Fixpoint basename (p : str) : str :=
  match p with
  | [] => []
  | c :: p' =>
      if bool_decide (slash ∈ p') then basename p'
      else if (c =? slash)%N then p' else p
  end.

(** [str(n)] for a Python [int]: decimal digits, most significant first, with
    a leading minus sign for negative numbers. *)
Definition minus_sign : N := 45%N.

Fixpoint str_of_uint (d : Decimal.uint) : str :=
  match d with
  | Decimal.Nil => []
  | Decimal.D0 d' => 48%N :: str_of_uint d'
  | Decimal.D1 d' => 49%N :: str_of_uint d'
  | Decimal.D2 d' => 50%N :: str_of_uint d'
  | Decimal.D3 d' => 51%N :: str_of_uint d'
  | Decimal.D4 d' => 52%N :: str_of_uint d'
  | Decimal.D5 d' => 53%N :: str_of_uint d'
  | Decimal.D6 d' => 54%N :: str_of_uint d'
  | Decimal.D7 d' => 55%N :: str_of_uint d'
  | Decimal.D8 d' => 56%N :: str_of_uint d'
  | Decimal.D9 d' => 57%N :: str_of_uint d'
  end.

Definition digit_char (d : Z) : N := Z.to_N (48 + d).

Definition str_of_int (n : Z) : str :=
  match Z.to_int n with
  | Decimal.Pos d => str_of_uint d
  | Decimal.Neg d => minus_sign :: str_of_uint d
  end.

End PyStr.
Import PyStr.

(** ** Python floats

    The script computes one float, [getsize / 1024 / 1024], and formats it
    with [.2f].  Both operations are correctly rounded in CPython (binary64,
    round to nearest, ties to even), so they are modelled on exact values: a
    finite non-negative double is [f_mant * 2 ^ f_exp].  Overflow, subnormal
    numbers and signs are out of reach for a file size divided by [2 ^ 20]
    and are left out. *)

Module PyFloat.

Record float := mkFloat { f_mant : Z; f_exp : Z }.

(** The integer nearest to [a / b], ties to even ([0 <= a], [0 < b]). *)
Definition round_half_even (a b : Z) : Z :=
  let q := a / b in
  let r := a mod b in
  if 2 * r <? b then q
  else if b <? 2 * r then q + 1
  else if Z.even q then q else q + 1.

(** The fraction [(a / b) * 2 ^ (- s)] as a numerator and a denominator. *)
Definition scale2 (a b s : Z) : Z * Z :=
  if s <=? 0 then (a * 2 ^ (- s), b) else (a, b * 2 ^ s).

(** The double nearest to [a / b]: the exponent [s] is chosen so that the
    scaled quotient has 53 significant bits, then the mantissa is rounded.
    ([0 <= a], [0 < b].) *)
Definition nearest_double (a b : Z) : float :=
  if a =? 0 then mkFloat 0 0
  else
    let s0 := Z.log2 a - Z.log2 b - 52 in
    let s := if (fst (scale2 a b s0) / snd (scale2 a b s0)) <? 2 ^ 52
             then s0 - 1 else s0 in
    mkFloat (round_half_even (fst (scale2 a b s)) (snd (scale2 a b s))) s.

(** [float(n)] *)
Definition float_of_int (n : Z) : float := nearest_double n 1.

(** [a / b] on two [int]s: the correctly rounded quotient. *)
Definition int_truediv (a b : Z) : float := nearest_double a b.

(** [x / y] on two floats. *)
Definition float_truediv (x y : float) : float :=
  let '(a, b) := scale2 (f_mant x) (f_mant y) (f_exp y - f_exp x) in
  nearest_double a b.

(** [x / n] with a float and an [int]: the [int] is converted first. *)
Definition float_truediv_int (x : float) (n : Z) : float :=
  float_truediv x (float_of_int n).

(** [100 * x] rounded to an integer, ties to even: the digits that
    [format(x, ".2f")] shows. *)
Definition hundredths (x : float) : Z :=
  let '(a, b) := scale2 (100 * f_mant x) 1 (- f_exp x) in
  round_half_even a b.

(** The text of [q / 100] with two decimals. *)
Definition render_2dp (q : Z) : str :=
  str_of_int (q / 100) ++ u "." ++ [digit_char (q mod 100 / 10); digit_char (q mod 10)].

(** [format(x, ".2f")] *)
Definition format_2f (x : float) : str := render_2dp (hundredths x).

(** Comparison with the IEEE 754 specification of the Standard Library, used
    to test the model on concrete inputs. *)
Definition of_spec_float (x : SpecFloat.spec_float) : option float :=
  match x with
  | SpecFloat.S754_zero false => Some (mkFloat 0 0)
  | SpecFloat.S754_finite false m e => Some (mkFloat (Z.pos m) e)
  | _ => None
  end.

Definition same_value (x y : float) : bool :=
  let e := Z.min (f_exp x) (f_exp y) in
  f_mant x * 2 ^ (f_exp x - e) =? f_mant y * 2 ^ (f_exp y - e).

Definition binary64_of_int (n : Z) : SpecFloat.spec_float :=
  SpecFloat.binary_normalize 53 1024 n 0 false.

Definition binary64_div (x y : SpecFloat.spec_float) : SpecFloat.spec_float :=
  SpecFloat.SFdiv 53 1024 x y.

Definition agrees_with_binary64 (x : float) (y : SpecFloat.spec_float) : bool :=
  match of_spec_float y with
  | Some y' => same_value x y'
  | None => false
  end.

End PyFloat.
Import PyFloat.

(** ** Exceptions, observable actions and the execution monad *)

Module Py.

(** The part of Python's exception hierarchy the script can tell apart:
    [SystemExit] and [KeyboardInterrupt] derive from [BaseException] only,
    every other exception met here is an instance of a subclass [cls] of
    [Exception], with [msg] its [str()]. *)
Inductive exn :=
| SystemExit (code : Z)
| KeyboardInterrupt
| PyException (cls msg : str).

(** [isinstance(e, Exception)] *)
Definition isinstance_Exception (e : exn) : bool :=
  match e with
  | PyException _ _ => true
  | SystemExit _ | KeyboardInterrupt => false
  end.

(** [str(e)] *)
Definition str_exn (e : exn) : str :=
  match e with
  | SystemExit code => str_of_int code
  | KeyboardInterrupt => []
  | PyException _ msg => msg
  end.

(** A value that is either [None] or a [str], as returned by
    [os.environ.get]. *)
Abbreviation value := (option str).

(** Truth value of such a value: [None] and the empty string are false. *)
Definition truthy (v : value) : bool :=
  match v with
  | Some (_ :: _) => true
  | Some [] | None => false
  end.

(** How an f-string renders such a value. *)
Definition fmt (v : value) : str :=
  match v with
  | Some s => s
  | None => u "None"
  end.

(** A [requests.Response], as far as the script reads it. *)
Record response := mkResponse { status_code : Z; text : str }.

(** What the script does to the outside world, in order. *)
Inductive event :=
| Print (line : str)
| Glob (pattern : str)
| Getsize (path : str)
| Open (path mode : str)
| Post (url : str) (data : gmap str value) (files : gmap str str) (timeout : Z)
| Close (path : str).

(** What the outside world answers: the environment and the command line,
    and the results of the calls the script makes (each is made at most
    once). *)
Record world := mkWorld {
  environ : gmap str str;
  argv : list str;
  glob_result : list str;
  getsize_result : exn + Z;
  open_result : option exn;
  post_result : exn + response;
}.

(** A computation yields the events it performed and either a raised
    exception or a value. *)
Definition M (A : Type) : Type := list event * (exn + A).

#[export] Instance M_ret : MRet M := λ A (a : A), ([], inr a).

#[export] Instance M_bind : MBind M := λ A B (f : A → M B) (m : M A),
  match m with
  | (t, inl e) => (t, inl e)
  | (t, inr a) => let '(t', r) := f a in (t ++ t', r)
  end.

#[export] Instance M_fmap : FMap M := λ A B (f : A → B) (m : M A),
  match m with
  | (t, inl e) => (t, inl e)
  | (t, inr a) => (t, inr (f a))
  end.

Definition raise {A} (e : exn) : M A := ([], inl e).

Definition emit (ev : event) : M unit := ([ev], inr tt).

(** [try: body except Exception as e: handler(e)] *)
Definition try_except {A} (body : M A) (handler : exn → M A) : M A :=
  match body with
  | (t, inl e) =>
      if isinstance_Exception e
      then let '(t', r) := handler e in (t ++ t', r)
      else (t, inl e)
  | (t, inr a) => (t, inr a)
  end.

(** [print(line)] *)
Definition print (line : str) : M unit := emit (Print line).

(** [sys.exit(code)] *)
Definition sys_exit {A} (code : Z) : M A := raise (SystemExit code).

(** [l[i]] *)
Definition index (l : list str) (i : nat) : M str :=
  match l !! i with
  | Some x => mret x
  | None => raise (PyException (u "IndexError") (u "list index out of range"))
  end.

Section World.
Variable w : world.

(** [glob.glob(pattern)] *)
Definition glob (pattern : str) : M (list str) :=
  ([Glob pattern], inr (glob_result w)).

(** [os.path.getsize(path)] *)
Definition getsize (path : str) : M Z :=
  ([Getsize path],
   match getsize_result w with inl e => inl e | inr n => inr n end).

(** [with open(path, mode) as f: body(f)]; the open file is named by its
    path, and is closed however the body ends. *)
Definition with_open {A} (path mode : str) (body : str → M A) : M A :=
  match open_result w with
  | Some e => ([Open path mode], inl e)
  | None => let '(t, r) := body path in (Open path mode :: t ++ [Close path], r)
  end.

(** [requests.post(url, data=data, files=files, timeout=timeout)] *)
Definition post (url : str) (data : gmap str value) (files : gmap str str)
    (timeout : Z) : M response :=
  ([Post url data files timeout],
   match post_result w with inl e => inl e | inr r => inr r end).

End World.

(** How the interpreter ends the process. *)
Inductive outcome :=
| Exit (code : Z)
| Uncaught (e : exn).

(** Running a module-level call: a normal return exits 0, [SystemExit]
    exits with its code, any other exception is reported as uncaught. *)
Definition run_main (m : M unit) : list event * outcome :=
  match m with
  | (t, inr _) => (t, Exit 0)
  | (t, inl (SystemExit code)) => (t, Exit code)
  | (t, inl e) => (t, Uncaught e)
  end.

End Py.
Import Py.

(** ** The script *)

Definition nl : str := [10%N].

Definition default_event_label : str := u "New Yield / 新产物".

(** [server_url + "/" + repo + "/actions/runs/" + run_id], the f-string of
    the script. *)
Definition make_run_url (server_url repo run_id : str) : str :=
  server_url ++ u "/" ++ repo ++ u "/actions/runs/" ++ run_id.

(** [os.path.getsize(file_path) / 1024 / 1024] *)
Definition size_in_mb (byte_count : Z) : float :=
  float_truediv_int (int_truediv byte_count 1024) 1024.

Definition make_caption (event_label version file_name : str)
    (file_size : float) (run_url : str) : str :=
  (u "🌾 <b>Meta-Hybrid: " ++ event_label ++ u "</b>" ++ nl ++ nl)
  ++ (u "🧬 <b>Cultivar (品种):</b> <code>" ++ version ++ u "</code>" ++ nl)
  ++ (u "🥡 <b>Yield (产物):</b> " ++ file_name ++ nl)
  ++ (u "⚖️ <b>Weight (重量):</b> " ++ format_2f file_size ++ u " MB" ++ nl ++ nl)
  ++ (u "🚜 <a href='" ++ run_url ++ u "'>View Field Log (查看日志)</a>").

(** [topic_id and topic_id.strip() != "" and topic_id != "0"] *)
Definition topic_given (topic_id : value) : bool :=
  truthy topic_id
  && match topic_id with
     | Some t => negb (str_eqb (strip t) []) && negb (str_eqb t (u "0"))
     | None => false
     end.

(** The payload of the request: the dictionary literal and the conditional
    [message_thread_id] entry, with the line printed along with it. *)
Definition build_data (chat_id : value) (caption : str) (topic_id : value)
    : M (gmap str value) :=
  let data : gmap str value :=
    {[ u "chat_id" := chat_id;
       u "caption" := Some caption;
       u "parse_mode" := Some (u "HTML") ]} in
  if topic_given topic_id then
    _ ← print (u "Targeting Topic ID: " ++ fmt topic_id);
    mret (<[ u "message_thread_id" := topic_id ]> data)
  else mret data.

Definition send_telegram_file (w : world) : M unit :=
  let bot_token := environ w !! u "TELEGRAM_BOT_TOKEN" in
  let chat_id := environ w !! u "TELEGRAM_CHAT_ID" in

  topic_id ← (if bool_decide (1 < length (argv w))%nat
              then Some <$> index (argv w) 1 else mret None);
  event_label ← (if bool_decide (2 < length (argv w))%nat
                 then index (argv w) 2 else mret default_event_label);

  _ ← (if negb (truthy bot_token) || negb (truthy chat_id) then
         _ ← print (u "Error: TELEGRAM_BOT_TOKEN or TELEGRAM_CHAT_ID not set.");
         sys_exit 1
       else mret tt);

  let version := default (u "Unknown") (environ w !! u "META_HYBRID_VERSION") in
  let repo := default (u "") (environ w !! u "GITHUB_REPOSITORY") in
  let run_id := default (u "") (environ w !! u "GITHUB_RUN_ID") in
  let server_url :=
    default (u "https://github.com") (environ w !! u "GITHUB_SERVER_URL") in
  let run_url := make_run_url server_url repo run_id in

  files ← glob w (u "output/*.zip");
  _ ← (if bool_decide (files = []) then
         _ ← print (u "Error: No grain sacks (zip files) found in output/.");
         sys_exit 1
       else mret tt);

  file_path ← index files 0;
  let file_name := basename file_path in
  byte_count ← getsize w file_path;
  let file_size := size_in_mb byte_count in

  _ ← print (u "Selecting yield: " ++ file_name ++ u " ("
             ++ format_2f file_size ++ u " MB)");

  let url := u "https://api.telegram.org/bot" ++ fmt bot_token ++ u "/sendDocument" in

  let caption := make_caption event_label version file_name file_size run_url in

  data ← build_data chat_id caption topic_id;

  _ ← print (u "Dispatching yield to Granary (Telegram)...");

  try_except
    (response ← with_open w file_path (u "rb") (λ f,
         let files_payload : gmap str str := {[ u "document" := f ]} in
         post w url data files_payload 120);
     if bool_decide (status_code response = 200) then
       print (u "✅ Yield stored successfully!")
     else
       _ ← print (u "❌ Storage failed: " ++ str_of_int (status_code response)
                  ++ u " - " ++ text response);
       sys_exit 1)
    (λ e,
       _ ← print (u "❌ Transport error: " ++ str_exn e);
       sys_exit 1).

(** [if __name__ == "__main__": send_telegram_file()] *)
Definition main (w : world) : list event * outcome :=
  run_main (send_telegram_file w).

Definition trace (w : world) : list event := (main w).1.
Definition exit_status (w : world) : outcome := (main w).2.


(** ** The values a run works with, as functions of the world *)

Section Values.
Variable w : world.

Definition bot_token : value := environ w !! u "TELEGRAM_BOT_TOKEN".
Definition chat_id : value := environ w !! u "TELEGRAM_CHAT_ID".
Definition topic_id : value := argv w !! 1%nat.
Definition event_label : str := default default_event_label (argv w !! 2%nat).
Definition version : str := default (u "Unknown") (environ w !! u "META_HYBRID_VERSION").
Definition repo : str := default (u "") (environ w !! u "GITHUB_REPOSITORY").
Definition run_id : str := default (u "") (environ w !! u "GITHUB_RUN_ID").
Definition server_url : str :=
  default (u "https://github.com") (environ w !! u "GITHUB_SERVER_URL").
Definition run_url : str := make_run_url server_url repo run_id.

(** Both credentials are set and non-empty. *)
Definition credentials_ok : bool := truthy bot_token && truthy chat_id.

Definition url : str :=
  u "https://api.telegram.org/bot" ++ fmt bot_token ++ u "/sendDocument".

Definition caption (file_path : str) (byte_count : Z) : str :=
  make_caption event_label version (basename file_path) (size_in_mb byte_count) run_url.

Definition selecting_line (file_path : str) (byte_count : Z) : str :=
  u "Selecting yield: " ++ basename file_path ++ u " ("
  ++ format_2f (size_in_mb byte_count) ++ u " MB)".

(** The payload [build_data] returns and the lines it prints. *)
Definition payload (file_path : str) (byte_count : Z) : gmap str value :=
  let data : gmap str value :=
    {[ u "chat_id" := chat_id;
       u "caption" := Some (caption file_path byte_count);
       u "parse_mode" := Some (u "HTML") ]} in
  if topic_given topic_id then <[ u "message_thread_id" := topic_id ]> data else data.

Definition targeting : list event :=
  if topic_given topic_id then [Print (u "Targeting Topic ID: " ++ fmt topic_id)] else [].

(** Everything a run does between the credential check and the [try]. *)
Definition preamble (file_path : str) (byte_count : Z) : list event :=
  [Glob (u "output/*.zip"); Getsize file_path;
   Print (selecting_line file_path byte_count)]
  ++ targeting
  ++ [Print (u "Dispatching yield to Granary (Telegram)...")].

Definition request (file_path : str) (byte_count : Z) : event :=
  Post url (payload file_path byte_count) {[ u "document" := file_path ]} 120.

End Values.

Definition missing_credentials_line : str :=
  u "Error: TELEGRAM_BOT_TOKEN or TELEGRAM_CHAT_ID not set.".
Definition no_files_line : str :=
  u "Error: No grain sacks (zip files) found in output/.".
Definition success_line : str := u "✅ Yield stored successfully!".
Definition storage_failed_line (r : response) : str :=
  u "❌ Storage failed: " ++ str_of_int (status_code r) ++ u " - " ++ text r.
Definition transport_error_line (e : exn) : str :=
  u "❌ Transport error: " ++ str_exn e.
Definition dispatching_line : str := u "Dispatching yield to Granary (Telegram)...".
Definition targeting_line (w : world) : str :=
  u "Targeting Topic ID: " ++ fmt (topic_id w).

(** How the process ends when [e] reaches the top of the script. *)
Definition propagate (e : exn) : outcome :=
  match e with
  | SystemExit code => Exit code
  | _ => Uncaught e
  end.

(** How the [try] statement ends when its body raises [e]. *)
Definition after_raise (e : exn) : list event * outcome :=
  if isinstance_Exception e then ([Print (transport_error_line e)], Exit 1)
  else ([], propagate e).

(** How the run ends once a response has arrived. *)
Definition report_line (r : response) : str :=
  if bool_decide (status_code r = 200) then success_line else storage_failed_line r.

Definition report_status (r : response) : outcome :=
  if bool_decide (status_code r = 200) then Exit 0 else Exit 1.

(** ** Vocabulary of the properties *)

Definition is_post (ev : event) : bool :=
  match ev with Post _ _ _ _ => true | _ => false end.

Definition is_glob (ev : event) : bool :=
  match ev with Glob _ => true | _ => false end.

(** The lines a trace prints, in order. *)
Definition printed (t : list event) : list str :=
  omap (λ ev, match ev with Print line => Some line | _ => None end) t.

(** The payloads a trace sends. *)
Definition payloads (t : list event) : list (gmap str value) :=
  omap (λ ev, match ev with Post _ data _ _ => Some data | _ => None end) t.

(** The run performs the HTTP POST. *)
Definition reaches_post (w : world) : bool := existsb is_post (trace w).

(** The same world with another environment, and with another answer to
    [os.path.getsize]. *)
Definition set_environ (env : gmap str str) (w : world) : world :=
  {| environ := env; argv := argv w; glob_result := glob_result w;
     getsize_result := getsize_result w; open_result := open_result w;
     post_result := post_result w |}.

Definition set_getsize (r : exn + Z) (w : world) : world :=
  {| environ := environ w; argv := argv w; glob_result := glob_result w;
     getsize_result := r; open_result := open_result w;
     post_result := post_result w |}.

(** The two diagnostics of the [try] statement, recognised by their fixed
    beginning, and how often a trace prints a line of a kind. *)
Definition is_rejection_line (line : str) : bool :=
  startswith (u "❌ Storage failed: ") line.

Definition is_transport_line (line : str) : bool :=
  startswith (u "❌ Transport error: ") line.


(** [t in s], computed. *)
Fixpoint containsb (t s : str) : bool :=
  startswith t s
  || match s with
     | [] => false
     | _ :: s' => containsb t s'
     end.

(** The hyperlink to [url] as the caption writes it. *)
Definition hyperlink (url : str) : str := u "<a href='" ++ url ++ u "'>".

(** The run URL as a plain concatenation of the server URL, the repository
    slug, ["/actions/runs/"] and the run id, for comparison with
    [make_run_url]. *)
Definition plain_concatenation (server_url repo run_id : str) : str :=
  server_url ++ repo ++ u "/actions/runs/" ++ run_id.

(** An event with the text that depends on the file size blanked: the
    ["Selecting yield"] line is cut after its fixed beginning and the caption
    is removed from the payload.  Everything else is kept. *)
Definition redact (ev : event) : event :=
  match ev with
  | Print line =>
      if startswith (u "Selecting yield: ") line
      then Print (u "Selecting yield: ") else ev
  | Post url data files timeout => Post url (delete (u "caption") data) files timeout
  | Glob _ | Getsize _ | Open _ _ | Close _ => ev
  end.

(** [q / 100] is [n / 1048576] rounded to two decimals: no other multiple of
    [1 / 100] is nearer to it. *)
Definition rounds_to_2dp (n q : Z) : Prop :=
  2 * Z.abs (q * 1048576 - 100 * n) ≤ 1048576.

(** The text [s] shows [n / 1048576] rounded to two decimals. *)
Definition shows_rounded_size (n : Z) (s : str) : Prop :=
  ∃ q, rounds_to_2dp n q ∧ s = render_2dp q.

(** The size computed with the IEEE 754 operations of the Standard Library:
    [float(n) / 1024.0 / 1024.0]. *)
Definition size_in_mb_binary64 (n : Z) : SpecFloat.spec_float :=
  binary64_div (binary64_div (binary64_of_int n) (binary64_of_int 1024))
    (binary64_of_int 1024).

(** A byte count above [2 ^ 53] for which the rounding of the division shows. *)
Definition huge : Z := 2 ^ 53 + 15729.


(** Sample worlds. *)
Definition sample_environ : gmap str str :=
  {[ u "TELEGRAM_BOT_TOKEN" := u "123:abc";
     u "TELEGRAM_CHAT_ID" := u "-1001";
     u "GITHUB_REPOSITORY" := u "Winkmoon/Re_meta-hybrid_mount";
     u "GITHUB_RUN_ID" := u "42" ]}.

Definition sample_world (post : exn + response) : world :=
  {| environ := sample_environ;
     argv := [u "tg_notify.py"; u "7"];
     glob_result := [u "output/meta-hybrid.zip"];
     getsize_result := inr 2097152;
     open_result := None;
     post_result := post |}.

Definition w_ok : world := sample_world (inr (mkResponse 200 (u "{}"))).
Definition forbidden : response := mkResponse 403 (u "Forbidden").
Definition w_forbidden : world := sample_world (inr forbidden).
Definition timed_out : exn := PyException (u "ConnectTimeout") (u "timed out").
Definition w_timeout : world := sample_world (inl timed_out).
Definition w_no_token : world :=
  set_environ (delete (u "TELEGRAM_BOT_TOKEN") sample_environ) w_ok.
Definition w_empty_token : world :=
  set_environ (<[ u "TELEGRAM_BOT_TOKEN" := [] ]> sample_environ) w_ok.
Definition w_no_files : world :=
  {| environ := sample_environ; argv := [u "tg_notify.py"]; glob_result := [];
     getsize_result := inr 0; open_result := None;
     post_result := inr (mkResponse 200 []) |}.

(** ** Further vocabulary: the shapes of a run *)

Definition is_open (ev : event) : bool :=
  match ev with Open _ _ => true | _ => false end.

Definition is_close (ev : event) : bool :=
  match ev with Close _ => true | _ => false end.

Definition is_getsize (ev : event) : bool :=
  match ev with Getsize _ => true | _ => false end.


(** How many events of a kind a trace has. *)
Definition count_events (kind : event → bool) (t : list event) : nat :=
  length (List.filter kind t).

(** The same world with another answer to [glob.glob], and with another bot
    token in the environment. *)
Definition set_glob (files : list str) (w : world) : world :=
  {| environ := environ w; argv := argv w; glob_result := files;
     getsize_result := getsize_result w; open_result := open_result w;
     post_result := post_result w |}.

Definition set_token (token : str) (w : world) : world :=
  set_environ (<[ u "TELEGRAM_BOT_TOKEN" := token ]> (environ w)) w.

(** The six ways a run can go, each with the run it gives. *)
Inductive run_shape (w : world) : list event * outcome → Prop :=
| shape_missing_credentials :
    credentials_ok w = false →
    run_shape w ([Print missing_credentials_line], Exit 1)
| shape_no_files :
    credentials_ok w = true → glob_result w = [] →
    run_shape w ([Glob (u "output/*.zip"); Print no_files_line], Exit 1)
| shape_getsize_raises file_path rest e :
    credentials_ok w = true → glob_result w = file_path :: rest →
    getsize_result w = inl e →
    run_shape w ([Glob (u "output/*.zip"); Getsize file_path], propagate e)
| shape_open_raises file_path rest n e :
    credentials_ok w = true → glob_result w = file_path :: rest →
    getsize_result w = inr n → open_result w = Some e →
    run_shape w
      (preamble w file_path n ++ Open file_path (u "rb") :: (after_raise e).1,
       (after_raise e).2)
| shape_post_raises file_path rest n e :
    credentials_ok w = true → glob_result w = file_path :: rest →
    getsize_result w = inr n → open_result w = None → post_result w = inl e →
    run_shape w
      (preamble w file_path n
       ++ [Open file_path (u "rb"); request w file_path n; Close file_path]
       ++ (after_raise e).1,
       (after_raise e).2)
| shape_response file_path rest n r :
    credentials_ok w = true → glob_result w = file_path :: rest →
    getsize_result w = inr n → open_result w = None → post_result w = inr r →
    run_shape w
      (preamble w file_path n
       ++ [Open file_path (u "rb"); request w file_path n; Close file_path;
           Print (report_line r)],
       report_status r).



Definition file_vanished : exn :=
  PyException (u "FileNotFoundError")
    (u "[Errno 2] No such file or directory: 'output/meta-hybrid.zip'").
Definition w_vanished : world := set_getsize (inl file_vanished) w_ok.

(** ** The paths through the script *)

Lemma read_topic_id w :
  (if bool_decide (1 < length (argv w))%nat
   then Some <$> index (argv w) 1 else mret None) = mret (topic_id w).
Proof.
  unfold topic_id, index. case_bool_decide as H.
  - destruct (lookup_lt_is_Some_2 (argv w) 1%nat H) as [x ->]. reflexivity.
  - rewrite lookup_ge_None_2 by lia. reflexivity.
Qed.

Lemma read_event_label w :
  (if bool_decide (2 < length (argv w))%nat
   then index (argv w) 2 else mret default_event_label) = mret (event_label w).
Proof.
  unfold event_label, index. case_bool_decide as H.
  - destruct (lookup_lt_is_Some_2 (argv w) 2%nat H) as [x ->]. reflexivity.
  - rewrite lookup_ge_None_2 by lia. cbn [default]. reflexivity.
Qed.


Ltac step :=
  cbn [mbind M_bind mret M_ret fmap M_fmap print emit sys_exit raise fst snd app
       run_main glob getsize with_open post try_except index
       lookup list_lookup isinstance_Exception negb orb andb].

Ltac names :=
  unfold preamble, request, targeting, payload, url, caption, selecting_line,
    run_url, server_url, run_id, repo, version, bot_token, chat_id,
    missing_credentials_line, no_files_line, success_line, storage_failed_line,
    transport_error_line, report_line, report_status, after_raise, propagate.

Lemma bind_ret {A B} (a : A) (f : A → M B) : mret a ≫= f = f a.
Proof. unfold mret, mbind, M_ret, M_bind. by destruct (f a). Qed.

Lemma credentials_check w :
  negb (truthy (environ w !! u "TELEGRAM_BOT_TOKEN"))
  || negb (truthy (environ w !! u "TELEGRAM_CHAT_ID")) = negb (credentials_ok w).
Proof.
  unfold credentials_ok, bot_token, chat_id.
  by destruct (truthy _), (truthy _).
Qed.

Ltac finish :=
  names; step; rewrite <- ?app_assoc; step; reflexivity.

(** The script up to the credential check. *)
Ltac enter :=
  unfold main, send_telegram_file;
  rewrite read_topic_id, read_event_label, !bind_ret, credentials_check.

Lemma run_missing_credentials w :
  credentials_ok w = false →
  main w = ([Print missing_credentials_line], Exit 1).
Proof.
  intros Hc. enter. rewrite Hc. step. names. reflexivity.
Qed.

Lemma run_no_files w :
  credentials_ok w = true →
  glob_result w = [] →
  main w = ([Glob (u "output/*.zip"); Print no_files_line], Exit 1).
Proof.
  intros Hc Hg. enter. rewrite Hc. step. rewrite Hg.
  rewrite bool_decide_eq_true_2 by done. step. names. reflexivity.
Qed.

Lemma run_getsize_raises w file_path rest e :
  credentials_ok w = true →
  glob_result w = file_path :: rest →
  getsize_result w = inl e →
  main w = ([Glob (u "output/*.zip"); Getsize file_path], propagate e).
Proof.
  intros Hc Hg Hs. enter. rewrite Hc. step. rewrite Hg.
  rewrite bool_decide_eq_false_2 by done. step. rewrite Hs. step.
  names. by destruct e.
Qed.

Lemma build_data_eq w file_path n :
  build_data (environ w !! u "TELEGRAM_CHAT_ID") (caption w file_path n) (topic_id w)
  = (targeting w, inr (payload w file_path n)).
Proof.
  unfold build_data, targeting, payload, chat_id.
  destruct (topic_given (topic_id w)); step; reflexivity.
Qed.

(** The script up to the [try] statement, for a run that gets there. *)
Ltac reach_try w file_path n Hc Hg Hs :=
  enter; rewrite Hc; step; rewrite Hg;
  rewrite bool_decide_eq_false_2 by done; step; rewrite Hs; step;
  match goal with
  | |- context [build_data ?c ?cap ?t] =>
      replace cap with (caption w file_path n) by (names; reflexivity)
  end;
  rewrite build_data_eq; step.

Lemma run_open_raises w file_path rest n e :
  credentials_ok w = true →
  glob_result w = file_path :: rest →
  getsize_result w = inr n →
  open_result w = Some e →
  main w = (preamble w file_path n ++ Open file_path (u "rb") :: (after_raise e).1,
            (after_raise e).2).
Proof.
  intros Hc Hg Hs Ho. reach_try w file_path n Hc Hg Hs.
  unfold with_open. rewrite Ho. destruct e; step; finish.
Qed.

Lemma run_post_raises w file_path rest n e :
  credentials_ok w = true →
  glob_result w = file_path :: rest →
  getsize_result w = inr n →
  open_result w = None →
  post_result w = inl e →
  main w = (preamble w file_path n
            ++ [Open file_path (u "rb"); request w file_path n; Close file_path]
            ++ (after_raise e).1,
            (after_raise e).2).
Proof.
  intros Hc Hg Hs Ho Hp. reach_try w file_path n Hc Hg Hs.
  unfold with_open, post. rewrite Ho, Hp. destruct e; step; finish.
Qed.

Lemma run_response w file_path rest n r :
  credentials_ok w = true →
  glob_result w = file_path :: rest →
  getsize_result w = inr n →
  open_result w = None →
  post_result w = inr r →
  main w = (preamble w file_path n
            ++ [Open file_path (u "rb"); request w file_path n; Close file_path;
                Print (report_line r)],
            report_status r).
Proof.
  intros Hc Hg Hs Ho Hp. reach_try w file_path n Hc Hg Hs.
  unfold with_open, post. rewrite Ho, Hp. step.
  unfold report_line, report_status. case_bool_decide; step; finish.
Qed.

(** ** Which runs post *)

Lemma is_post_preamble w file_path n ev :
  ev ∈ preamble w file_path n → is_post ev = false.
Proof.
  unfold preamble, targeting. destruct (topic_given (topic_id w));
    rewrite !elem_of_app, !elem_of_cons, ?elem_of_nil; intros H;
    repeat destruct H as [H|H]; subst; done.
Qed.

Lemma is_post_after_raise e ev :
  ev ∈ (after_raise e).1 → is_post ev = false.
Proof.
  unfold after_raise. destruct (isinstance_Exception e); cbn [fst];
    rewrite ?elem_of_cons, ?elem_of_nil; intros H;
    repeat destruct H as [H|H]; subst; done.
Qed.

(** A run posts exactly when the checks pass and the file opens; the event is
    then [request]. *)
Lemma post_inv w ev :
  ev ∈ trace w → is_post ev = true →
  ∃ file_path rest n,
    credentials_ok w = true ∧ glob_result w = file_path :: rest
    ∧ getsize_result w = inr n ∧ open_result w = None
    ∧ ev = request w file_path n.
Proof.
  unfold trace. intros Hin Hp.
  destruct (credentials_ok w) eqn:Hc;
    [| rewrite run_missing_credentials in Hin by done;
       apply list_elem_of_singleton in Hin; by subst ].
  destruct (glob_result w) as [|file_path rest] eqn:Hg.
  { rewrite run_no_files in Hin by done. cbn [fst] in Hin.
    rewrite !elem_of_cons, elem_of_nil in Hin.
    repeat destruct Hin as [Hin|Hin]; subst; done. }
  destruct (getsize_result w) as [e|n] eqn:Hs.
  { rewrite (run_getsize_raises w file_path rest e) in Hin by done.
    cbn [fst] in Hin. rewrite !elem_of_cons, elem_of_nil in Hin.
    repeat destruct Hin as [Hin|Hin]; subst; done. }
  destruct (open_result w) as [e|] eqn:Ho.
  { rewrite (run_open_raises w file_path rest n e) in Hin by done.
    cbn [fst] in Hin. rewrite elem_of_app, elem_of_cons in Hin.
    destruct Hin as [Hin|[->|Hin]]; [| done |].
    - by rewrite (is_post_preamble _ _ _ _ Hin) in Hp.
    - by rewrite (is_post_after_raise _ _ Hin) in Hp. }
  exists file_path, rest, n. repeat split; try done.
  destruct (post_result w) as [e|r] eqn:Hr.
  - rewrite (run_post_raises w file_path rest n e) in Hin by done.
    cbn [fst] in Hin. rewrite !elem_of_app, !elem_of_cons, elem_of_nil in Hin.
    destruct Hin as [Hin|[[->|[->|[->|[]]]]|Hin]]; try done.
    + by rewrite (is_post_preamble _ _ _ _ Hin) in Hp.
    + by rewrite (is_post_after_raise _ _ Hin) in Hp.
  - rewrite (run_response w file_path rest n r) in Hin by done.
    cbn [fst] in Hin. rewrite !elem_of_app, !elem_of_cons, elem_of_nil in Hin.
    destruct Hin as [Hin|[->|[->|[->|[->|[]]]]]]; try done.
    by rewrite (is_post_preamble _ _ _ _ Hin) in Hp.
Qed.

(** ** What a run prints *)

Lemma printed_app t1 t2 : printed (t1 ++ t2) = printed t1 ++ printed t2.
Proof. apply omap_app. Qed.

Lemma printed_preamble w file_path n :
  printed (preamble w file_path n)
  = selecting_line file_path n
    :: (if topic_given (topic_id w) then [targeting_line w] else [])
    ++ [dispatching_line].
Proof.
  unfold preamble, targeting, targeting_line, dispatching_line.
  by destruct (topic_given (topic_id w)).
Qed.

(** Two lines that differ in their first code point. *)
Ltac first_differs H :=
  apply (f_equal head) in H; vm_compute in H; discriminate H.






Lemma reaches_post_inv w :
  reaches_post w = true →
  ∃ file_path rest n,
    credentials_ok w = true ∧ glob_result w = file_path :: rest
    ∧ getsize_result w = inr n ∧ open_result w = None.
Proof.
  unfold reaches_post. intros H.
  apply existsb_exists in H as (ev & Hin & Hp). apply list_elem_of_In in Hin.
  destruct (post_inv w ev Hin Hp) as (file_path & rest & n & ? & ? & ? & ? & _).
  by exists file_path, rest, n.
Qed.

Lemma printed_response_run w file_path n r :
  printed (preamble w file_path n
           ++ [Open file_path (u "rb"); request w file_path n; Close file_path;
               Print (report_line r)])
  = printed (preamble w file_path n) ++ [report_line r].
Proof. by rewrite printed_app. Qed.

(** ** C1: the exit status follows the response status *)



(** ** C2: missing credentials *)

(** C2.  When the bot token or the chat id is missing from the environment,
    the run consists of printing the diagnostic and exiting 1: there is no
    glob and no network call. *)
Theorem C2_missing_credentials_fail_fast w :
  environ w !! u "TELEGRAM_BOT_TOKEN" = None
  ∨ environ w !! u "TELEGRAM_CHAT_ID" = None →
  trace w = [Print missing_credentials_line]
  ∧ exit_status w = Exit 1
  ∧ existsb is_glob (trace w) = false
  ∧ existsb is_post (trace w) = false.
Proof.
  intros H. unfold trace, exit_status.
  rewrite run_missing_credentials; [done|].
  unfold credentials_ok, bot_token, chat_id.
  destruct H as [-> | ->]; [done | apply andb_false_r].
Qed.

Lemma C2_witness :
  environ w_no_token !! u "TELEGRAM_BOT_TOKEN" = None
  ∧ trace w_no_token = [Print missing_credentials_line]
  ∧ exit_status w_no_token = Exit 1.
Proof.
  assert (H : environ w_no_token !! u "TELEGRAM_BOT_TOKEN" = None)
    by (vm_compute; reflexivity).
  destruct (C2_missing_credentials_fail_fast w_no_token (or_introl H))
    as (? & ? & _).
  done.
Defined.

(** ** C3: no artifact *)

(** C3.  When the glob yields no file, the process exits 1 after printing a
    diagnostic and makes no network call; the run that gets to the glob is
    the glob followed by the diagnostic. *)
Theorem C3_no_artifact_no_network w :
  glob_result w = [] →
  exit_status w = Exit 1
  ∧ existsb is_post (trace w) = false
  ∧ (∃ line, last (trace w) = Some (Print line))
  ∧ (credentials_ok w = true →
     trace w = [Glob (u "output/*.zip"); Print no_files_line]).
Proof.
  intros Hg. unfold exit_status, trace.
  destruct (credentials_ok w) eqn:Hc.
  - rewrite run_no_files by done. cbn [fst snd]. repeat split; try done. by eexists.
  - rewrite run_missing_credentials by done. cbn [fst snd]. repeat split; try done.
    by eexists.
Qed.

Lemma C3_witness :
  glob_result w_no_files = []
  ∧ exit_status w_no_files = Exit 1
  ∧ existsb is_post (trace w_no_files) = false.
Proof.
  destruct (C3_no_artifact_no_network w_no_files eq_refl) as (? & ? & _).
  done.
Defined.

(** ** C5 and C10: the [try] statement *)




Lemma transport_error_line_kind e : is_transport_line (transport_error_line e) = true.
Proof. reflexivity. Qed.


Lemma storage_failed_line_kind r :
  is_rejection_line (storage_failed_line r) = true
  ∧ is_transport_line (storage_failed_line r) = false.
Proof. split; reflexivity. Qed.

Lemma success_line_kind :
  is_rejection_line success_line = false ∧ is_transport_line success_line = false.
Proof. split; reflexivity. Qed.


Lemma try_except_Exception {A} t e (handler : exn → M A) :
  isinstance_Exception e = true →
  try_except (t, inl e) handler = (t ++ (handler e).1, (handler e).2).
Proof. intros H. unfold try_except. rewrite H. by destruct (handler e). Qed.






(** ** C9: an empty credential *)

Lemma credentials_ok_set_environ env w :
  credentials_ok (set_environ env w)
  = truthy (env !! u "TELEGRAM_BOT_TOKEN") && truthy (env !! u "TELEGRAM_CHAT_ID").
Proof. reflexivity. Qed.

(** C9.  A bot token or chat id that is set to the empty string gives the
    same run as one that is absent: the missing-credential diagnostic is
    printed and the process exits 1, with nothing else done. *)
Theorem C9_empty_credential_as_absent w k :
  k = u "TELEGRAM_BOT_TOKEN" ∨ k = u "TELEGRAM_CHAT_ID" →
  main (set_environ (<[ k := [] ]> (environ w)) w)
  = main (set_environ (delete k (environ w)) w)
  ∧ main (set_environ (<[ k := [] ]> (environ w)) w)
    = ([Print missing_credentials_line], Exit 1).
Proof.
  intros Hk.
  assert (H1 : credentials_ok (set_environ (<[ k := [] ]> (environ w)) w) = false).
  { rewrite credentials_ok_set_environ.
    destruct Hk as [-> | ->]; rewrite lookup_insert_eq;
      [done | apply andb_false_r]. }
  assert (H2 : credentials_ok (set_environ (delete k (environ w)) w) = false).
  { rewrite credentials_ok_set_environ.
    destruct Hk as [-> | ->]; rewrite lookup_delete_eq;
      [done | apply andb_false_r]. }
  by rewrite !run_missing_credentials.
Qed.

Lemma C9_witness :
  main w_empty_token = main w_no_token
  ∧ main w_empty_token = ([Print missing_credentials_line], Exit 1).
Proof.
  exact (C9_empty_credential_as_absent w_ok (u "TELEGRAM_BOT_TOKEN")
           (or_introl eq_refl)).
Defined.

(** ** C4: the topic field of the payload *)

Lemma drop_while_nil p (s : str) :
  drop_while p s = [] ↔ Forall (λ c, p c = true) s.
Proof.
  induction s as [|c s IH]; cbn [drop_while].
  - split; [constructor | done].
  - destruct (p c) eqn:Hc.
    + rewrite IH. split; [by constructor | by inversion 1].
    + split; [done|]. intros H. apply Forall_cons in H as [Hc' _].
      cbn beta in Hc'. congruence.
Qed.

(** What is left of a string after [lstrip] is empty or starts with a code
    point that is not white space. *)
Lemma drop_while_head p (s : str) c :
  head (drop_while p s) = Some c → p c = false.
Proof.
  induction s as [|d s IH]; cbn [drop_while]; [done|].
  destruct (p d) eqn:Hd; [done|]. cbn. by intros [= <-].
Qed.

(** A string is blank after trimming exactly when all of it is white space. *)
Lemma strip_nil (s : str) :
  strip s = [] ↔ Forall (λ c, isspace c = true) s.
Proof.
  unfold strip, rstrip, lstrip. split.
  - intros H. apply (f_equal reverse) in H.
    rewrite reverse_involutive, reverse_nil in H.
    apply drop_while_nil in H. rewrite Forall_reverse in H.
    apply drop_while_nil.
    destruct (drop_while isspace s) as [|c s'] eqn:Hd; [done|].
    assert (isspace c = false) as Hc by (apply (drop_while_head isspace s); by rewrite Hd).
    apply Forall_cons in H as [Hc' _]. cbn beta in Hc'. congruence.
  - intros H. apply drop_while_nil in H. by rewrite H.
Qed.

Lemma str_eqb_false (a b : str) : negb (str_eqb a b) = true ↔ a ≠ b.
Proof.
  unfold str_eqb. rewrite negb_true_iff, bool_decide_eq_false. done.
Qed.

(** The condition of the script, in the words of the claim: the argument is
    present, not blank after trimming, and not the string ["0"]. *)
Lemma topic_given_spec (topic : value) :
  topic_given topic = true ↔ ∃ t, topic = Some t ∧ strip t ≠ [] ∧ t ≠ u "0".
Proof.
  unfold topic_given. destruct topic as [t|]; cbn [truthy].
  - rewrite andb_true_iff, andb_true_iff, !str_eqb_false. split.
    + intros (_ & ? & ?). by exists t.
    + intros (t' & [= <-] & Hs & H0). split; [|done].
      destruct t; [|done]. by destruct Hs.
  - split; [done | by intros (? & ? & _)].
Qed.

Ltac str_neq := let H := fresh in intros H; vm_compute in H; discriminate H.

Lemma payload_thread_field w file_path n :
  payload w file_path n !! u "message_thread_id"
  = if topic_given (topic_id w) then Some (topic_id w) else None.
Proof.
  unfold payload. destruct (topic_given (topic_id w)).
  - apply lookup_insert_eq.
  - rewrite !lookup_insert_ne by str_neq.
    apply lookup_singleton_ne. str_neq.
Qed.

Lemma payloads_app t1 t2 : payloads (t1 ++ t2) = payloads t1 ++ payloads t2.
Proof. apply omap_app. Qed.

Lemma payloads_preamble w file_path n : payloads (preamble w file_path n) = [].
Proof. unfold preamble, targeting. by destruct (topic_given (topic_id w)). Qed.

Lemma payloads_after_raise e : payloads (after_raise e).1 = [].
Proof. unfold after_raise. by destruct (isinstance_Exception e). Qed.

(** A run that posts sends one payload, the one built from the world. *)
Lemma payloads_of_run w :
  reaches_post w = true →
  ∃ file_path rest n,
    glob_result w = file_path :: rest ∧ getsize_result w = inr n
    ∧ payloads (trace w) = [payload w file_path n].
Proof.
  intros Hpost.
  destruct (reaches_post_inv w Hpost) as (file_path & rest & n & Hc & Hg & Hs & Ho).
  exists file_path, rest, n. split; [done|]. split; [done|]. unfold trace.
  destruct (post_result w) as [e|r] eqn:Hr.
  - rewrite (run_post_raises w file_path rest n e) by done. cbn [fst].
    rewrite !payloads_app, payloads_preamble, payloads_after_raise.
    reflexivity.
  - rewrite (run_response w file_path rest n r) by done. cbn [fst].
    rewrite !payloads_app, payloads_preamble. reflexivity.
Qed.

(** C4.  A run that posts sends one payload, and it has a
    [message_thread_id] field if and only if the topic id argument is
    present, not blank after trimming and not the string ["0"]; the field
    then holds the argument as given.  In particular the field is absent for
    the empty string, for ["0"] and for a string of white space only, and
    present for every other value.  The same holds of the payload
    [build_data] returns, whether or not it is sent. *)
Theorem C4_thread_field w :
  reaches_post w = true →
  (∃ data,
     payloads (trace w) = [data]
     ∧ (is_Some (data !! u "message_thread_id")
        ↔ ∃ t, argv w !! 1%nat = Some t ∧ strip t ≠ [] ∧ t ≠ u "0")
     ∧ (∀ t, argv w !! 1%nat = Some t →
          t = [] ∨ t = u "0" ∨ Forall (λ c, isspace c = true) t →
          data !! u "message_thread_id" = None)
     ∧ (∀ t, argv w !! 1%nat = Some t →
          ¬ Forall (λ c, isspace c = true) t → t ≠ u "0" →
          data !! u "message_thread_id" = Some (Some t)))
  ∧ (∀ chat cap topic,
       ∃ lines built, build_data chat cap topic = (lines, inr built)
         ∧ (is_Some (built !! u "message_thread_id")
            ↔ ∃ t, topic = Some t ∧ strip t ≠ [] ∧ t ≠ u "0")).
Proof.
  intros Hpost. split.
  - destruct (payloads_of_run w Hpost) as (file_path & rest & n & _ & _ & Hp).
    exists (payload w file_path n). split; [exact Hp|].
    rewrite payload_thread_field.
    pose proof (topic_given_spec (topic_id w)) as Hspec. unfold topic_id in *.
    split; [|split].
    + destruct (topic_given (argv w !! 1%nat)).
      * split; [intros _; by apply Hspec|].
        intros (t & -> & _). by eexists.
      * split; [by intros [? ?]|]. intros H. apply Hspec in H. done.
    + intros t Ht Hblank.
      destruct (topic_given (argv w !! 1%nat)); [|done].
      destruct Hspec as [Hspec _]. destruct (Hspec eq_refl) as (t' & Ht' & Hs & H0).
      rewrite Ht in Ht'. injection Ht' as <-.
      destruct Hblank as [-> | [-> | Hall]]; [by destruct Hs | by destruct H0 |].
      by apply strip_nil in Hall.
    + intros t Ht Hns H0.
      assert (topic_given (argv w !! 1%nat) = true) as ->; [|by rewrite Ht].
      apply Hspec. exists t. repeat split; try done.
      intros Hs. by apply strip_nil in Hs.
  - intros chat cap topic. unfold build_data.
    destruct (topic_given topic) eqn:Htg; step; do 2 eexists;
      (split; [reflexivity|]); rewrite <- topic_given_spec, Htg.
    + rewrite lookup_insert_eq. by split.
    + rewrite !lookup_insert_ne by str_neq.
      rewrite lookup_singleton_ne by str_neq. split; [by intros [? ?] | done].
Qed.

Lemma sample_world_posts r :
  request (sample_world (inr r)) (u "output/meta-hybrid.zip") 2097152
  ∈ trace (sample_world (inr r)).
Proof.
  unfold trace.
  rewrite (run_response (sample_world (inr r)) (u "output/meta-hybrid.zip") []
             2097152 r); try reflexivity.
  cbn [fst]. apply elem_of_app. right.
  apply elem_of_cons. right. apply elem_of_cons. by left.
Qed.

Lemma sample_world_payload r :
  payload (sample_world (inr r)) (u "output/meta-hybrid.zip") 2097152
  ∈ payloads (trace (sample_world (inr r))).
Proof.
  apply list_elem_of_omap. eexists. split; [apply sample_world_posts|].
  reflexivity.
Qed.

Lemma C4_witness :
  reaches_post w_ok = true
  ∧ ∃ data, payloads (trace w_ok) = [data]
            ∧ data !! u "message_thread_id" = Some (Some (u "7")).
Proof.
  assert (H : reaches_post w_ok = true) by (vm_compute; reflexivity).
  split; [exact H|].
  destruct (C4_thread_field w_ok H) as [(data & Hp & _ & _ & Hpresent) _].
  exists data. split; [exact Hp|]. apply Hpresent.
  - reflexivity.
  - intros Hall. apply Forall_cons in Hall as [Hc _]. vm_compute in Hc. discriminate Hc.
  - intros H0. vm_compute in H0. discriminate H0.
Defined.

(** ** C6: the caption *)

Lemma startswith_spec (t s : str) : startswith t s = true ↔ ∃ b, s = t ++ b.
Proof.
  revert s. induction t as [|c t IH]; intros s; cbn [startswith].
  - split; [by exists s | done].
  - destruct s as [|d s]; [split; [done | by intros (? & ?)]|].
    rewrite andb_true_iff, N.eqb_eq, IH. split.
    + intros (-> & b & ->). by exists b.
    + intros (b & [= -> ->]). split; [done | by exists b].
Qed.

Lemma containsb_spec (t s : str) : containsb t s = true ↔ contains t s.
Proof.
  unfold contains. induction s as [|d s IH]; cbn [containsb];
    rewrite orb_true_iff, startswith_spec.
  - split.
    + intros [(b & ->) | ?]; [by exists [], b | done].
    + intros (a & b & H). left. destruct a; [by exists b | done].
  - rewrite IH. split.
    + intros [(b & ->) | (a & b & ->)]; [by exists [], b | by exists (d :: a), b].
    + intros ([|d' a] & b & H); [left; by exists b|].
      right. injection H as -> ->. by exists a, b.
Qed.

Lemma contains_here (t b : str) : contains t (t ++ b).
Proof. by exists [], b. Qed.

Lemma contains_app_r (t a s : str) : contains t s → contains t (a ++ s).
Proof. intros (a' & b & ->). exists (a ++ a'), b. by rewrite <- app_assoc. Qed.

Lemma make_caption_flat event_label version file_name file_size run_url :
  make_caption event_label version file_name file_size run_url
  = u "🌾 <b>Meta-Hybrid: " ++ event_label ++ u "</b>" ++ nl ++ nl
    ++ u "🧬 <b>Cultivar (品种):</b> <code>" ++ version ++ u "</code>" ++ nl
    ++ u "🥡 <b>Yield (产物):</b> " ++ file_name ++ nl
    ++ u "⚖️ <b>Weight (重量):</b> " ++ format_2f file_size ++ u " MB" ++ nl ++ nl
    ++ u "🚜 " ++ hyperlink run_url ++ u "View Field Log (查看日志)</a>".
Proof.
  assert (E1 : u "🚜 <a href='" = u "🚜 " ++ u "<a href='")
    by (vm_compute; reflexivity).
  assert (E2 : u "'>View Field Log (查看日志)</a>"
               = u "'>" ++ u "View Field Log (查看日志)</a>")
    by (vm_compute; reflexivity).
  unfold make_caption, hyperlink. rewrite E1, E2, <- !app_assoc. reflexivity.
Qed.

Lemma make_caption_contains event_label version file_name file_size run_url :
  let cap := make_caption event_label version file_name file_size run_url in
  contains event_label cap ∧ contains version cap ∧ contains file_name cap
  ∧ contains (format_2f file_size) cap ∧ contains (hyperlink run_url) cap.
Proof.
  cbv zeta. rewrite make_caption_flat. repeat split.
  - do 1 apply contains_app_r. apply contains_here.
  - do 6 apply contains_app_r. apply contains_here.
  - do 10 apply contains_app_r. apply contains_here.
  - do 13 apply contains_app_r. apply contains_here.
  - do 18 apply contains_app_r. apply contains_here.
Qed.

Lemma payload_caption w file_path n :
  payload w file_path n !! u "caption" = Some (Some (caption w file_path n)).
Proof.
  unfold payload. destruct (topic_given (topic_id w)).
  - rewrite lookup_insert_ne by str_neq. rewrite lookup_insert_ne by str_neq.
    apply lookup_insert_eq.
  - rewrite lookup_insert_ne by str_neq. apply lookup_insert_eq.
Qed.

(** C6, as stated, fails.  The caption of the sample run links to
    [https://github.com/Winkmoon/Re_meta-hybrid_mount/actions/runs/42]; the
    plain concatenation of server URL, repository slug, ["/actions/runs/"]
    and run id lacks the slash after the server URL, and no hyperlink to it
    occurs in the caption. *)
Lemma C6_counterexample :
  payload w_ok (u "output/meta-hybrid.zip") 2097152 ∈ payloads (trace w_ok)
  ∧ payload w_ok (u "output/meta-hybrid.zip") 2097152 !! u "caption"
    = Some (Some (caption w_ok (u "output/meta-hybrid.zip") 2097152))
  ∧ run_url w_ok = u "https://github.com/Winkmoon/Re_meta-hybrid_mount/actions/runs/42"
  ∧ plain_concatenation (server_url w_ok) (repo w_ok) (run_id w_ok)
    = u "https://github.comWinkmoon/Re_meta-hybrid_mount/actions/runs/42"
  ∧ ¬ contains
        (hyperlink (plain_concatenation (server_url w_ok) (repo w_ok) (run_id w_ok)))
        (caption w_ok (u "output/meta-hybrid.zip") 2097152).
Proof.
  split; [apply (sample_world_payload (mkResponse 200 (u "{}")))|].
  split; [apply payload_caption|].
  split; [vm_compute; reflexivity|].
  split; [vm_compute; reflexivity|].
  rewrite <- containsb_spec. vm_compute. discriminate.
Qed.

(** C6 (amended).  The caption of the payload a run sends contains the
    event label, the version string, the file name of the artifact and the
    formatted size, each as computed, and a hyperlink whose URL is the server
    URL, a slash, the repository slug, ["/actions/runs/"] and the run id. *)
Theorem C6_caption_contents w :
  reaches_post w = true →
  ∃ file_path rest n data,
    glob_result w = file_path :: rest
    ∧ getsize_result w = inr n
    ∧ payloads (trace w) = [data]
    ∧ data !! u "caption" = Some (Some (caption w file_path n))
    ∧ contains (event_label w) (caption w file_path n)
    ∧ contains (version w) (caption w file_path n)
    ∧ contains (basename file_path) (caption w file_path n)
    ∧ contains (format_2f (size_in_mb n)) (caption w file_path n)
    ∧ contains (hyperlink (run_url w)) (caption w file_path n)
    ∧ run_url w
      = server_url w ++ u "/" ++ repo w ++ u "/actions/runs/" ++ run_id w.
Proof.
  intros Hpost.
  destruct (payloads_of_run w Hpost) as (file_path & rest & n & Hg & Hs & Hp).
  exists file_path, rest, n, (payload w file_path n).
  split; [done|]. split; [done|]. split; [done|].
  split; [apply payload_caption|].
  destruct (make_caption_contains (event_label w) (version w) (basename file_path)
              (size_in_mb n) (run_url w)) as (? & ? & ? & ? & ?).
  by repeat split.
Qed.

Lemma C6_witness :
  reaches_post w_ok = true
  ∧ ∃ file_path n,
      contains (hyperlink (run_url w_ok)) (caption w_ok file_path n)
      ∧ contains (event_label w_ok) (caption w_ok file_path n).
Proof.
  assert (H : reaches_post w_ok = true) by (vm_compute; reflexivity).
  split; [exact H|].
  destruct (C6_caption_contents w_ok H)
    as (file_path & _ & n & _ & _ & _ & _ & _ & He & _ & _ & _ & Hl & _).
  exists file_path, n. exact (conj Hl He).
Defined.

(** ** C8: the size is for display only *)

Lemma redact_selecting file_path n :
  redact (Print (selecting_line file_path n)) = Print (u "Selecting yield: ").
Proof. reflexivity. Qed.

Lemma redact_targeting w : map redact (targeting w) = targeting w.
Proof. unfold targeting. by destruct (topic_given (topic_id w)). Qed.

Lemma redact_after_raise e : map redact (after_raise e).1 = (after_raise e).1.
Proof. unfold after_raise. by destruct (isinstance_Exception e). Qed.

Lemma redact_print_other line :
  startswith (u "Selecting yield: ") line = false →
  redact (Print line) = Print line.
Proof. intros H. unfold redact. by rewrite H. Qed.

Lemma redact_report r : redact (Print (report_line r)) = Print (report_line r).
Proof.
  unfold report_line. case_bool_decide; apply redact_print_other;
    vm_compute; reflexivity.
Qed.

Lemma redact_preamble w file_path n :
  map redact (preamble w file_path n)
  = [Glob (u "output/*.zip"); Getsize file_path; Print (u "Selecting yield: ")]
    ++ targeting w ++ [Print dispatching_line].
Proof.
  unfold preamble, dispatching_line. rewrite !map_app, redact_targeting.
  cbn [map]. rewrite redact_selecting.
  rewrite redact_print_other by (vm_compute; reflexivity). reflexivity.
Qed.

Lemma redact_request w file_path n :
  redact (request w file_path n)
  = Post (url w)
      (let data : gmap str value :=
         {[ u "chat_id" := chat_id w; u "parse_mode" := Some (u "HTML") ]} in
       if topic_given (topic_id w)
       then <[ u "message_thread_id" := topic_id w ]> data else data)
      {[ u "document" := file_path ]} 120.
Proof.
  unfold request, redact, payload. cbv zeta. f_equal.
  destruct (topic_given (topic_id w)).
  - rewrite delete_insert_ne by str_neq. rewrite delete_insert_ne by str_neq.
    by rewrite delete_insert_eq, delete_singleton_ne by str_neq.
  - rewrite delete_insert_ne by str_neq.
    by rewrite delete_insert_eq, delete_singleton_ne by str_neq.
Qed.

Lemma existsb_is_post_preamble w file_path n :
  existsb is_post (preamble w file_path n) = false.
Proof.
  unfold preamble, targeting. by destruct (topic_given (topic_id w)).
Qed.

Lemma existsb_is_post_after_raise e : existsb is_post (after_raise e).1 = false.
Proof. unfold after_raise. by destruct (isinstance_Exception e). Qed.

(** The world read through [set_getsize]. *)
Ltac through_size :=
  unfold url, targeting, chat_id, topic_id, bot_token;
  cbn [environ argv glob_result open_result post_result set_getsize].

Lemma redact_preamble_size r w file_path n :
  map redact (preamble (set_getsize r w) file_path n)
  = [Glob (u "output/*.zip"); Getsize file_path; Print (u "Selecting yield: ")]
    ++ targeting w ++ [Print dispatching_line].
Proof. rewrite redact_preamble. through_size. reflexivity. Qed.

Lemma redact_request_size r w file_path n :
  redact (request (set_getsize r w) file_path n) = redact (request w file_path 0).
Proof. rewrite !redact_request. through_size. reflexivity. Qed.

Ltac same_skeleton :=
  cbn [fst snd];
  rewrite ?existsb_app, ?map_app, ?redact_preamble_size,
    ?existsb_is_post_preamble;
  cbn [map existsb app];
  rewrite ?redact_request_size, ?redact_after_raise, ?redact_report;
  reflexivity.

(** C8.  Two runs that differ only in the byte count of the artifact end
    with the same exit status, both perform the POST or neither does, and
    their traces are equal event by event once the size-dependent text (the
    rest of the ["Selecting yield"] line and the caption) is blanked: the
    same branches are taken. *)
Theorem C8_size_is_display_only w n1 n2 :
  exit_status (set_getsize (inr n1) w) = exit_status (set_getsize (inr n2) w)
  ∧ reaches_post (set_getsize (inr n1) w) = reaches_post (set_getsize (inr n2) w)
  ∧ map redact (trace (set_getsize (inr n1) w))
    = map redact (trace (set_getsize (inr n2) w)).
Proof.
  unfold exit_status, reaches_post, trace.
  destruct (credentials_ok w) eqn:Hc.
  2: { rewrite !run_missing_credentials by exact Hc. done. }
  destruct (glob_result w) as [|file_path rest] eqn:Hg.
  { rewrite !run_no_files by first [exact Hc | exact Hg]. done. }
  destruct (open_result w) as [e|] eqn:Ho.
  { rewrite (run_open_raises (set_getsize (inr n1) w) file_path rest n1 e),
      (run_open_raises (set_getsize (inr n2) w) file_path rest n2 e)
      by first [exact Hc | exact Hg | exact Ho | reflexivity].
    repeat split; same_skeleton. }
  destruct (post_result w) as [e|r] eqn:Hr.
  - rewrite (run_post_raises (set_getsize (inr n1) w) file_path rest n1 e),
      (run_post_raises (set_getsize (inr n2) w) file_path rest n2 e)
      by first [exact Hc | exact Hg | exact Ho | exact Hr | reflexivity].
    repeat split; same_skeleton.
  - rewrite (run_response (set_getsize (inr n1) w) file_path rest n1 r),
      (run_response (set_getsize (inr n2) w) file_path rest n2 r)
      by first [exact Hc | exact Hg | exact Ho | exact Hr | reflexivity].
    repeat split; same_skeleton.
Qed.

(** ** C7: the size shown *)

Lemma round_half_even_exact k d : 0 < d → round_half_even (k * d) d = k.
Proof.
  intros Hd. unfold round_half_even.
  rewrite Z.div_mul, Z.mod_mul by lia.
  destruct (Z.ltb_spec (2 * 0) d); [done | lia].
Qed.

Lemma round_half_even_scale a b k :
  0 < b → 0 < k → round_half_even (a * k) (b * k) = round_half_even a b.
Proof.
  intros Hb Hk. unfold round_half_even.
  rewrite Z.div_mul_cancel_r, Z.mul_mod_distr_r by lia.
  destruct (Z.ltb_spec (2 * (a mod b)) b), (Z.ltb_spec (2 * (a mod b * k)) (b * k));
    try nia.
  destruct (Z.ltb_spec b (2 * (a mod b))), (Z.ltb_spec (b * k) (2 * (a mod b * k)));
    try nia; done.
Qed.

Lemma round_half_even_nearest a b :
  0 < b → 2 * Z.abs (round_half_even a b * b - a) ≤ b.
Proof.
  intros Hb. unfold round_half_even.
  pose proof (Z.div_mod a b ltac:(lia)) as Hdm.
  pose proof (Z.mod_pos_bound a b Hb) as Hr.
  destruct (Z.ltb_spec (2 * (a mod b)) b); [lia|].
  destruct (Z.ltb_spec b (2 * (a mod b))); [lia|].
  destruct (Z.even (a / b)); lia.
Qed.

Lemma nearest_double_exact a b a0 i j :
  0 < a0 < 2 ^ 53 → 0 ≤ i → 0 ≤ j →
  a = a0 * 2 ^ i → b = 2 ^ j →
  ∃ s, s ≤ i - j ∧ nearest_double a b = mkFloat (a0 * 2 ^ (i - j - s)) s.
Proof.
  intros Ha0 Hi Hj -> ->. unfold nearest_double.
  assert (0 < 2 ^ i) by (apply Z.pow_pos_nonneg; lia).
  destruct (Z.eqb_spec (a0 * 2 ^ i) 0) as [|_]; [nia|].
  rewrite Z.log2_mul_pow2, Z.log2_pow2 by lia.
  assert (Z.log2 a0 < 53) by (apply Z.log2_lt_pow2; lia).
  set (s0 := i + Z.log2 a0 - j - 52).
  set (s := if _ <? _ then s0 - 1 else s0).
  assert (Hs : s ≤ i - j) by (subst s s0; destruct (_ <? _); lia).
  clearbody s. exists s. split; [done|]. f_equal.
  unfold scale2. destruct (Z.leb_spec s 0); cbn [fst snd].
  - replace (a0 * 2 ^ i * 2 ^ (- s)) with (a0 * 2 ^ (i - j - s) * 2 ^ j).
    + apply round_half_even_exact. apply Z.pow_pos_nonneg; lia.
    + rewrite <- !Z.mul_assoc, <- !Z.pow_add_r by lia. do 2 f_equal. lia.
  - replace (a0 * 2 ^ i) with (a0 * 2 ^ (i - j - s) * (2 ^ j * 2 ^ s)).
    + apply round_half_even_exact.
      apply Z.mul_pos_pos; apply Z.pow_pos_nonneg; lia.
    + rewrite <- !Z.mul_assoc, <- !Z.pow_add_r by lia. do 2 f_equal. lia.
Qed.

Lemma float_of_int_1024 : float_of_int 1024 = mkFloat (2 ^ 52) (-42).
Proof. vm_compute. reflexivity. Qed.

(** Below [2 ^ 53] bytes the size in MB is exact: [n / 2 ^ 20]. *)
Lemma size_in_mb_exact n :
  0 < n < 2 ^ 53 →
  ∃ s, s ≤ -20 ∧ size_in_mb n = mkFloat (n * 2 ^ (- 20 - s)) s.
Proof.
  intros Hn. unfold size_in_mb, float_truediv_int, int_truediv, float_truediv.
  rewrite float_of_int_1024.
  destruct (nearest_double_exact n 1024 n 0 10 Hn
              ltac:(lia) ltac:(lia) ltac:(lia) eq_refl) as (s1 & Hs1 & ->).
  cbn [f_mant f_exp]. unfold scale2.
  destruct (Z.leb_spec (-42 - s1) 0).
  - assert (Ha : n * 2 ^ (0 - 10 - s1) * 2 ^ (- (-42 - s1)) = n * 2 ^ 32).
    { rewrite <- Z.mul_assoc, <- Z.pow_add_r by lia. repeat f_equal; lia. }
    destruct (nearest_double_exact _ (2 ^ 52) n 32 52 Hn
                ltac:(lia) ltac:(lia) Ha eq_refl) as (s2 & Hs2 & ->).
    exists s2. split; [lia|]. repeat f_equal; lia.
  - assert (Ha : n * 2 ^ (0 - 10 - s1) = n * 2 ^ (- 10 - s1)).
    { repeat f_equal; lia. }
    assert (Hb : 2 ^ 52 * 2 ^ (-42 - s1) = 2 ^ (10 - s1)).
    { rewrite <- Z.pow_add_r by lia. repeat f_equal; lia. }
    destruct (nearest_double_exact _ _ n (- 10 - s1) (10 - s1) Hn
                ltac:(lia) ltac:(lia) Ha Hb) as (s2 & Hs2 & ->).
    exists s2. split; [lia|]. repeat f_equal; lia.
Qed.

Lemma hundredths_size_in_mb n :
  0 ≤ n < 2 ^ 53 →
  hundredths (size_in_mb n) = round_half_even (100 * n) 1048576.
Proof.
  intros Hn. destruct (Z.eq_dec n 0) as [-> | Hn0]; [vm_compute; reflexivity|].
  destruct (size_in_mb_exact n) as (s & Hs & ->); [lia|].
  unfold hundredths, scale2. cbn [f_mant f_exp].
  destruct (Z.leb_spec (- s) 0); [lia|].
  rewrite <- (round_half_even_scale (100 * n) 1048576 (2 ^ (-20 - s)))
    by (try apply Z.pow_pos_nonneg; lia).
  f_equal; [lia|]. change 1048576 with (2 ^ 20).
  rewrite Z.mul_1_l, <- Z.pow_add_r by lia. repeat f_equal; lia.
Qed.

Example size_in_mb_agrees_with_binary64 :
  forallb (λ n, agrees_with_binary64 (size_in_mb n) (size_in_mb_binary64 n))
    [0; 1; 1023; 1024; 131072; 2097152; 12345678; 52428800; 2 ^ 53 - 1;
     2 ^ 53; 2 ^ 53 + 1; huge; 2 ^ 62 + 12345; 2 ^ 63 - 1] = true.
Proof. vm_compute. reflexivity. Qed.

Example int_truediv_agrees_with_binary64 :
  forallb (λ '(a, b), agrees_with_binary64 (int_truediv a b)
                        (binary64_div (binary64_of_int a) (binary64_of_int b)))
    [(1, 3); (2, 3); (1, 10); (7, 5); (1000000007, 3); (2 ^ 53 - 1, 2 ^ 53 - 3);
     (5, 2 ^ 53 - 1)] = true.
Proof. vm_compute. reflexivity. Qed.

Example format_2f_ties_to_even :
  format_2f (size_in_mb 131072) = u "0.12"
  ∧ format_2f (size_in_mb 393216) = u "0.38".
Proof. split; vm_compute; reflexivity. Qed.

(** C7, as stated, fails.  At [2 ^ 53 + 15729] bytes the quotient
    [n / 1048576] is
    [8589934592.0150003...], which rounds to [8589934592.02]; the double
    nearest to it is [8589934592.0149993...], and the script shows
    [8589934592.01]. *)
Lemma C7_counterexample :
  format_2f (size_in_mb huge) = u "8589934592.01"
  ∧ agrees_with_binary64 (size_in_mb huge) (size_in_mb_binary64 huge) = true
  ∧ rounds_to_2dp huge 858993459202
  ∧ ¬ shows_rounded_size huge (format_2f (size_in_mb huge)).
Proof.
  split; [vm_compute; reflexivity|]. split; [vm_compute; reflexivity|].
  split; [unfold rounds_to_2dp, huge; lia|].
  intros (q & Hq & Heq). unfold rounds_to_2dp, huge in Hq.
  assert (q = 858993459202) as -> by lia.
  vm_compute in Heq. discriminate Heq.
Qed.

(** C7 (amended).  For every artifact of fewer than [2 ^ 53] bytes, the size
    string is [n / 1048576] rounded to the nearest hundredth (a tie goes to
    the even hundredth) and written with two decimals, [2097152] bytes give
    ["2.00"], and this string is the one in the caption and in the line
    printed. *)
Theorem C7_size_two_decimals n :
  0 ≤ n < 2 ^ 53 →
  format_2f (size_in_mb n) = render_2dp (round_half_even (100 * n) 1048576)
  ∧ shows_rounded_size n (format_2f (size_in_mb n))
  ∧ format_2f (size_in_mb 2097152) = u "2.00"
  ∧ (∀ event_label version file_name run_url,
       contains (format_2f (size_in_mb n) ++ u " MB")
         (make_caption event_label version file_name (size_in_mb n) run_url))
  ∧ (∀ file_path,
       contains (format_2f (size_in_mb n) ++ u " MB") (selecting_line file_path n)).
Proof.
  intros Hn.
  assert (Hfmt : format_2f (size_in_mb n)
                 = render_2dp (round_half_even (100 * n) 1048576)).
  { unfold format_2f. by rewrite hundredths_size_in_mb. }
  split; [exact Hfmt|]. split; [|split; [vm_compute; reflexivity|split]].
  - exists (round_half_even (100 * n) 1048576). split; [|exact Hfmt].
    apply round_half_even_nearest. lia.
  - intros event_label version file_name run_url. rewrite make_caption_flat.
    do 13 apply contains_app_r.
    rewrite (app_assoc (format_2f (size_in_mb n)) (u " MB")).
    apply contains_here.
  - intros file_path. unfold selecting_line.
    assert (E : u " MB)" = u " MB" ++ u ")") by (vm_compute; reflexivity).
    rewrite E. do 3 apply contains_app_r.
    rewrite (app_assoc (format_2f (size_in_mb n)) (u " MB")).
    apply contains_here.
Qed.

Lemma C7_witness :
  0 ≤ 2097152 < 2 ^ 53
  ∧ format_2f (size_in_mb 2097152) = u "2.00"
  ∧ shows_rounded_size 2097152 (format_2f (size_in_mb 2097152)).
Proof.
  assert (H : 0 ≤ 2097152 < 2 ^ 53) by lia.
  destruct (C7_size_two_decimals 2097152 H) as (_ & Hshows & H200 & _).
  exact (conj H (conj H200 Hshows)).
Defined.

(** ** Sample values and runs *)

Example u_decodes_utf8 : u "0" = [48%N] ∧ u "✅" = [9989%N] ∧ u "🌾" = [127806%N].
Proof. repeat split; vm_compute; reflexivity. Qed.

Example str_of_int_samples :
  str_of_int 403 = u "403" ∧ str_of_int 0 = u "0" ∧ str_of_int (-1200) = u "-1200".
Proof. repeat split; vm_compute; reflexivity. Qed.

Example strip_samples :
  strip (u "  0 ") = u "0" ∧ strip (9%N :: 160%N :: u " ") = [] ∧ strip (u "a b") = u "a b".
Proof. repeat split; vm_compute; reflexivity. Qed.

Example basename_samples :
  basename (u "output/meta-hybrid.zip") = u "meta-hybrid.zip"
  ∧ basename (u "a.zip") = u "a.zip"
  ∧ basename (u "output/") = [].
Proof. repeat split; vm_compute; reflexivity. Qed.

Example topic_given_samples :
  topic_given None = false ∧ topic_given (Some (u "")) = false
  ∧ topic_given (Some (u "0")) = false ∧ topic_given (Some (u "   ")) = false
  ∧ topic_given (Some (u "7")) = true ∧ topic_given (Some (u " 0 ")) = true.
Proof. repeat split; vm_compute; reflexivity. Qed.

Example run_ok :
  printed (trace w_ok)
  = [u "Selecting yield: meta-hybrid.zip (2.00 MB)";
     u "Targeting Topic ID: 7";
     u "Dispatching yield to Granary (Telegram)...";
     u "✅ Yield stored successfully!"]
  ∧ exit_status w_ok = Exit 0.
Proof. split; vm_compute; reflexivity. Qed.

Example run_forbidden :
  last (printed (trace w_forbidden)) = Some (u "❌ Storage failed: 403 - Forbidden")
  ∧ exit_status w_forbidden = Exit 1.
Proof. split; vm_compute; reflexivity. Qed.

Example run_timeout :
  last (printed (trace w_timeout)) = Some (u "❌ Transport error: timed out")
  ∧ exit_status w_timeout = Exit 1.
Proof. split; vm_compute; reflexivity. Qed.

Example run_no_files_sample :
  trace w_no_files
  = [Glob (u "output/*.zip");
     Print (u "Error: No grain sacks (zip files) found in output/.")]
  ∧ exit_status w_no_files = Exit 1.
Proof. split; vm_compute; reflexivity. Qed.

Example caption_sample :
  caption w_ok (u "output/meta-hybrid.zip") 2097152
  = u "🌾 <b>Meta-Hybrid: New Yield / 新产物</b>" ++ nl ++ nl
    ++ u "🧬 <b>Cultivar (品种):</b> <code>Unknown</code>" ++ nl
    ++ u "🥡 <b>Yield (产物):</b> meta-hybrid.zip" ++ nl
    ++ u "⚖️ <b>Weight (重量):</b> 2.00 MB" ++ nl ++ nl
    ++ u "🚜 <a href='https://github.com/Winkmoon/Re_meta-hybrid_mount/actions/runs/42'>View Field Log (查看日志)</a>".
Proof. vm_compute. reflexivity. Qed.

(** * Further properties of the script *)

(** ** Every run has one of six shapes *)

Lemma main_shape w : run_shape w (main w).
Proof.
  destruct (credentials_ok w) eqn:Hc.
  2: { rewrite run_missing_credentials by done. by constructor. }
  destruct (glob_result w) as [|file_path rest] eqn:Hg.
  { rewrite run_no_files by done. by constructor. }
  destruct (getsize_result w) as [e|n] eqn:Hs.
  { rewrite (run_getsize_raises w file_path rest e) by done.
    by apply (shape_getsize_raises w file_path rest e). }
  destruct (open_result w) as [e|] eqn:Ho.
  { rewrite (run_open_raises w file_path rest n e) by done.
    by apply (shape_open_raises w file_path rest n e). }
  destruct (post_result w) as [e|r] eqn:Hr.
  - rewrite (run_post_raises w file_path rest n e) by done.
    by apply (shape_post_raises w file_path rest n e).
  - rewrite (run_response w file_path rest n r) by done.
    by apply (shape_response w file_path rest n r).
Qed.

(** ** One request, with the file closed after it *)

Lemma count_events_app kind t1 t2 :
  count_events kind (t1 ++ t2) = (count_events kind t1 + count_events kind t2)%nat.
Proof. unfold count_events. by rewrite List.filter_app, length_app. Qed.

Lemma count_preamble w file_path n :
  count_events is_post (preamble w file_path n) = 0%nat
  ∧ count_events is_open (preamble w file_path n) = 0%nat
  ∧ count_events is_close (preamble w file_path n) = 0%nat.
Proof. unfold preamble, targeting. by destruct (topic_given (topic_id w)). Qed.

Lemma count_after_raise e :
  count_events is_post (after_raise e).1 = 0%nat
  ∧ count_events is_open (after_raise e).1 = 0%nat
  ∧ count_events is_close (after_raise e).1 = 0%nat.
Proof. unfold after_raise. by destruct (isinstance_Exception e). Qed.

Lemma count_events_cons kind ev t :
  count_events kind (ev :: t)
  = ((if kind ev then 1 else 0) + count_events kind t)%nat.
Proof. unfold count_events. cbn [List.filter]. by destruct (kind ev). Qed.

Lemma count_events_nil kind : count_events kind [] = 0%nat.
Proof. reflexivity. Qed.

Ltac count_shape :=
  cbn [fst snd];
  rewrite ?count_events_app, ?count_events_cons, ?count_events_nil,
    ?(proj1 (count_preamble _ _ _)), ?(proj1 (proj2 (count_preamble _ _ _))),
    ?(proj2 (proj2 (count_preamble _ _ _))),
    ?(proj1 (count_after_raise _)), ?(proj1 (proj2 (count_after_raise _))),
    ?(proj2 (proj2 (count_after_raise _)));
  unfold request;
  cbn [is_post is_open is_close Nat.add];
  try lia.

(** X1.  A run makes at most one POST (there is no retry, whatever the
    outcome), opens the file at most once, and closes it exactly when it has
    made the POST, also when the POST raised; the three events are adjacent. *)
Theorem post_once_with_file_closed w :
  (count_events is_post (trace w) ≤ 1)%nat
  ∧ count_events is_close (trace w) = count_events is_post (trace w)
  ∧ (count_events is_post (trace w) ≤ count_events is_open (trace w) ≤ 1)%nat
  ∧ (reaches_post w = true →
     ∃ file_path n before after,
       trace w = before
                 ++ [Open file_path (u "rb"); request w file_path n; Close file_path]
                 ++ after).
Proof.
  unfold reaches_post, trace. destruct (main_shape w); cbn [fst].
  - repeat split; try done; count_shape.
  - repeat split; try done; count_shape.
  - repeat split; try done; count_shape.
  - rewrite existsb_app, existsb_is_post_preamble. cbn [existsb is_post orb].
    rewrite existsb_is_post_after_raise.
    repeat split; try done; count_shape.
  - repeat split; try count_shape.
    intros _. by exists file_path, n, (preamble w file_path n), (after_raise e).1.
  - repeat split; try count_shape.
    intros _. exists file_path, n, (preamble w file_path n), [Print (report_line r)].
    reflexivity.
Qed.

Lemma existsb_kind_preamble w file_path n :
  existsb is_open (preamble w file_path n) = false.
Proof. unfold preamble, targeting. by destruct (topic_given (topic_id w)). Qed.

Lemma printed_after_raise e :
  printed (after_raise e).1
  = if isinstance_Exception e then [transport_error_line e] else [].
Proof. unfold after_raise. by destruct (isinstance_Exception e). Qed.


(** X3.  [os.path.getsize] is called outside the [try] statement: when it
    raises (the file vanished after the glob), the exception leaves the
    script uncaught, no line has been printed, and the file is neither opened
    nor sent. *)
Theorem getsize_failure_escapes w e :
  existsb is_getsize (trace w) = true →
  getsize_result w = inl e →
  isinstance_Exception e = true →
  exit_status w = Uncaught e
  ∧ printed (trace w) = []
  ∧ existsb is_open (trace w) = false
  ∧ reaches_post w = false.
Proof.
  unfold exit_status, reaches_post, trace.
  destruct (main_shape w) as [| | file_path rest e' ? ? Hs | ? ? ? ? ? ? Hs
                               | ? ? ? ? ? ? Hs | ? ? ? ? ? ? Hs]; cbn [fst snd];
    intros Hget Hs' He; try done; try congruence.
  rewrite Hs in Hs'. injection Hs' as ->.
  by destruct e.
Qed.






Lemma credentials_ok_inv w :
  credentials_ok w = true →
  ∃ token chat,
    environ w !! u "TELEGRAM_BOT_TOKEN" = Some token ∧ token ≠ []
    ∧ environ w !! u "TELEGRAM_CHAT_ID" = Some chat ∧ chat ≠ [].
Proof.
  unfold credentials_ok, bot_token, chat_id. intros H.
  apply andb_true_iff in H as [Ht Hc].
  destruct (environ w !! u "TELEGRAM_BOT_TOKEN") as [[|c token]|]; try done.
  destruct (environ w !! u "TELEGRAM_CHAT_ID") as [[|d chat]|]; try done.
  by exists (c :: token), (d :: chat).
Qed.

Lemma payload_dom w file_path n k :
  is_Some (payload w file_path n !! k) →
  k = u "chat_id" ∨ k = u "caption" ∨ k = u "parse_mode"
  ∨ k = u "message_thread_id".
Proof.
  intros H.
  destruct (decide (k = u "chat_id")) as [|H1]; [by left|].
  destruct (decide (k = u "caption")) as [|H2]; [by right; left|].
  destruct (decide (k = u "parse_mode")) as [|H3]; [by right; right; left|].
  destruct (decide (k = u "message_thread_id")) as [|H4]; [by right; right; right|].
  exfalso. unfold payload in H. destruct (topic_given (topic_id w));
    rewrite !lookup_insert_ne, lookup_singleton_ne in H by done;
    by apply is_Some_None in H.
Qed.

Lemma payload_fixed_fields w file_path n :
  payload w file_path n !! u "chat_id" = Some (chat_id w)
  ∧ payload w file_path n !! u "parse_mode" = Some (Some (u "HTML")).
Proof.
  unfold payload. destruct (topic_given (topic_id w)); split.
  - rewrite lookup_insert_ne by str_neq. apply lookup_insert_eq.
  - rewrite !lookup_insert_ne by str_neq. apply lookup_singleton_eq.
  - apply lookup_insert_eq.
  - rewrite !lookup_insert_ne by str_neq. apply lookup_singleton_eq.
Qed.

(** X6.  The one request a run makes goes to
    [https://api.telegram.org/bot<token>/sendDocument] with the token of the
    environment, has a timeout of 120 seconds, sends the first file of the
    glob as [document], and its form fields are [chat_id] (the chat id of the
    environment), [parse_mode] = [HTML], [caption] and possibly
    [message_thread_id], and no other. *)
Theorem request_shape w :
  reaches_post w = true →
  ∃ token chat file_path rest data,
    environ w !! u "TELEGRAM_BOT_TOKEN" = Some token
    ∧ environ w !! u "TELEGRAM_CHAT_ID" = Some chat
    ∧ glob_result w = file_path :: rest
    ∧ List.filter is_post (trace w)
      = [Post (u "https://api.telegram.org/bot" ++ token ++ u "/sendDocument")
           data {[ u "document" := file_path ]} 120]
    ∧ data !! u "chat_id" = Some (Some chat)
    ∧ data !! u "parse_mode" = Some (Some (u "HTML"))
    ∧ is_Some (data !! u "caption")
    ∧ (∀ k, is_Some (data !! k) →
         k = u "chat_id" ∨ k = u "caption" ∨ k = u "parse_mode"
         ∨ k = u "message_thread_id").
Proof.
  intros Hpost.
  destruct (reaches_post_inv w Hpost) as (file_path & rest & n & Hc & Hg & Hs & Ho).
  destruct (credentials_ok_inv w Hc) as (token & chat & Ht & _ & Hch & _).
  exists token, chat, file_path, rest, (payload w file_path n).
  destruct (payload_fixed_fields w file_path n) as [Hf1 Hf2].
  unfold chat_id in Hf1. rewrite Hch in Hf1.
  repeat split; try done.
  - assert (Hreq : request w file_path n
             = Post (u "https://api.telegram.org/bot" ++ token ++ u "/sendDocument")
                 (payload w file_path n) {[ u "document" := file_path ]} 120).
    { unfold request, url, bot_token. by rewrite Ht. }
    assert (Hpre : List.filter is_post (preamble w file_path n) = []).
    { unfold preamble, targeting. by destruct (topic_given (topic_id w)). }
    unfold trace. destruct (post_result w) as [e|r] eqn:Hr.
    + rewrite (run_post_raises w file_path rest n e) by done. cbn [fst].
      rewrite !List.filter_app, Hpre, Hreq.
      unfold after_raise. by destruct (isinstance_Exception e).
    + rewrite (run_response w file_path rest n r) by done. cbn [fst].
      rewrite !List.filter_app, Hpre, Hreq. reflexivity.
  - rewrite payload_caption. by eexists.
  - apply payload_dom.
Qed.

(** The world read through [set_glob] and [set_token]. *)
Ltac through_world :=
  unfold preamble, request, payload, caption, url, targeting, run_url, server_url,
    run_id, repo, version, event_label, chat_id, topic_id, bot_token,
    set_token, set_environ, set_glob;
  cbn [environ argv glob_result getsize_result open_result post_result].

(** X7.  Only the first file of the glob matters: two runs that differ in the
    other matches are the same run. *)
Theorem only_first_match_is_used w file_path rest rest' :
  main (set_glob (file_path :: rest) w) = main (set_glob (file_path :: rest') w).
Proof.
  set (w1 := set_glob (file_path :: rest) w).
  set (w2 := set_glob (file_path :: rest') w).
  destruct (credentials_ok w) eqn:Hc.
  2: { rewrite !run_missing_credentials by exact Hc. done. }
  destruct (getsize_result w) as [e|n] eqn:Hs.
  { rewrite (run_getsize_raises w1 file_path rest e),
      (run_getsize_raises w2 file_path rest' e)
      by first [exact Hc | exact Hs | reflexivity].
    reflexivity. }
  destruct (open_result w) as [e|] eqn:Ho.
  { rewrite (run_open_raises w1 file_path rest n e),
      (run_open_raises w2 file_path rest' n e)
      by first [exact Hc | exact Hs | exact Ho | reflexivity].
    subst w1 w2. through_world. reflexivity. }
  destruct (post_result w) as [e|r] eqn:Hr.
  - rewrite (run_post_raises w1 file_path rest n e),
      (run_post_raises w2 file_path rest' n e)
      by first [exact Hc | exact Hs | exact Ho | exact Hr | reflexivity].
    subst w1 w2. through_world. reflexivity.
  - rewrite (run_response w1 file_path rest n r),
      (run_response w2 file_path rest' n r)
      by first [exact Hc | exact Hs | exact Ho | exact Hr | reflexivity].
    subst w1 w2. through_world. reflexivity.
Qed.

(** X13.  The glob is made exactly when both credentials are non-empty, once,
    with the pattern [output/*.zip]. *)
Theorem glob_iff_credentials w :
  List.filter is_glob (trace w)
  = if credentials_ok w then [Glob (u "output/*.zip")] else [].
Proof.
  assert (Hpre : ∀ file_path n,
            List.filter is_glob (preamble w file_path n) = [Glob (u "output/*.zip")]).
  { intros. unfold preamble, targeting. by destruct (topic_given (topic_id w)). }
  assert (Hraise : ∀ e, List.filter is_glob (after_raise e).1 = []).
  { intros. unfold after_raise. by destruct (isinstance_Exception e). }
  unfold trace.
  destruct (main_shape w) as [Hc | Hc Hg | file_path rest e Hc Hg Hs
                               | file_path rest n e Hc Hg Hs Ho
                               | file_path rest n e Hc Hg Hs Ho Hr
                               | file_path rest n r Hc Hg Hs Ho Hr];
    cbn [fst]; rewrite Hc; try reflexivity;
    rewrite ?List.filter_app, ?Hpre; cbn [List.filter is_glob app];
    rewrite ?Hraise; reflexivity.
Qed.


Lemma printed_request_run w file_path n after :
  printed (preamble w file_path n
           ++ [Open file_path (u "rb"); request w file_path n; Close file_path]
           ++ after)
  = printed (preamble w file_path n) ++ printed after.
Proof. by rewrite !printed_app. Qed.



Lemma targeting_line_in_preamble w file_path n :
  targeting_line w ∈ printed (preamble w file_path n)
  ↔ topic_given (topic_id w) = true.
Proof.
  rewrite printed_preamble. destruct (topic_given (topic_id w)); cbn [app].
  - split; [done|]. intros _. apply elem_of_cons. right. apply elem_of_cons. by left.
  - split; [|done]. rewrite !elem_of_cons, elem_of_nil.
    intros [H|[H|[]]]; first_differs H.
Qed.

Lemma targeting_line_not_after_raise w e :
  targeting_line w ∉ printed (after_raise e).1.
Proof.
  rewrite printed_after_raise. destruct (isinstance_Exception e).
  - intros H. apply list_elem_of_singleton in H. first_differs H.
  - apply not_elem_of_nil.
Qed.

Lemma targeting_line_not_report w r : targeting_line w ≠ report_line r.
Proof.
  unfold report_line. case_bool_decide as Hd; intros Heq; first_differs Heq.
Qed.

(** X9.  In a run that posts, the line [Targeting Topic ID: <topic>] is
    printed exactly when the payload carries a [message_thread_id] field. *)
Theorem topic_line_iff_thread_field w :
  reaches_post w = true →
  ∃ data,
    payloads (trace w) = [data]
    ∧ (targeting_line w ∈ printed (trace w)
       ↔ is_Some (data !! u "message_thread_id")).
Proof.
  intros Hpost.
  destruct (payloads_of_run w Hpost) as (file_path & rest & n & Hg & Hs & Hp).
  destruct (reaches_post_inv w Hpost) as (fp & rest' & n' & Hc & Hg' & Hs' & Ho).
  rewrite Hg in Hg'. injection Hg' as <- <-. rewrite Hs in Hs'. injection Hs' as <-.
  exists (payload w file_path n). split; [exact Hp|].
  rewrite payload_thread_field.
  assert (Hfield : is_Some (if topic_given (topic_id w)
                            then Some (topic_id w) else None)
                   ↔ topic_given (topic_id w) = true).
  { destruct (topic_given (topic_id w)); split; try done. }
  rewrite Hfield, <- (targeting_line_in_preamble w file_path n).
  unfold trace. destruct (post_result w) as [e|r] eqn:Hr.
  - rewrite (run_post_raises w file_path rest n e) by done. cbn [fst].
    rewrite printed_request_run, elem_of_app. split; [|by left].
    intros [H|H]; [done|]. by apply targeting_line_not_after_raise in H.
  - rewrite (run_response w file_path rest n r) by done. cbn [fst].
    rewrite printed_response_run, elem_of_app. split; [|by left].
    intros [H|H]; [done|]. apply list_elem_of_singleton in H.
    by apply targeting_line_not_report in H.
Qed.

(** ** The string helpers *)

Lemma basename_no_slash (p : str) : slash ∉ basename p.
Proof.
  induction p as [|c p IH]; cbn [basename]; [apply not_elem_of_nil|].
  case_bool_decide as Hin; [done|].
  destruct (N.eqb_spec c slash) as [->|Hc]; [done|].
  intros [?|?]%elem_of_cons; [congruence | done].
Qed.

Lemma basename_split (p : str) :
  ∃ d, p = d ++ basename p ∧ (d = [] ∨ last d = Some slash).
Proof.
  induction p as [|c p (d & Hp & Hd)]; cbn [basename].
  { exists []. split; [done | by left]. }
  case_bool_decide as Hin.
  - exists (c :: d). split; [by rewrite Hp at 1|]. right.
    destruct Hd as [-> | Hd].
    + cbn [app] in Hp. rewrite Hp in Hin. by apply basename_no_slash in Hin.
    + rewrite last_cons. by rewrite Hd.
  - destruct (N.eqb_spec c slash) as [->|Hc].
    + exists [slash]. split; [done | by right].
    + exists []. split; [done | by left].
Qed.

(** X10.  The file name shown for a path is what follows its last slash: it
    contains no slash, and the path is a directory part, empty or ending in a
    slash, followed by the name. *)
Theorem basename_is_last_component (p : str) :
  (slash ∉ basename p)
  ∧ ∃ d, p = d ++ basename p ∧ (d = [] ∨ last d = Some slash).
Proof. split; [apply basename_no_slash | apply basename_split]. Qed.

Lemma drop_while_split q (s : str) :
  ∃ a, s = a ++ drop_while q s ∧ Forall (λ c, q c = true) a.
Proof.
  induction s as [|c s (a & Hs & Ha)]; cbn [drop_while]; [by exists []|].
  destruct (q c) eqn:Hc.
  - exists (c :: a). split; [by rewrite Hs at 1 | by constructor].
  - by exists [].
Qed.

Lemma rstrip_split (s : str) :
  ∃ b, s = rstrip s ++ b ∧ Forall (λ c, isspace c = true) b.
Proof.
  unfold rstrip. destruct (drop_while_split isspace (reverse s)) as (a & Hs & Ha).
  exists (reverse a). split; [|by apply Forall_reverse].
  rewrite <- reverse_app, <- Hs. by rewrite reverse_involutive.
Qed.

Lemma rstrip_last (s : str) c : last (rstrip s) = Some c → isspace c = false.
Proof. unfold rstrip. rewrite last_reverse. apply drop_while_head. Qed.

Lemma strip_outer (s : str) :
  (∃ a b, s = a ++ strip s ++ b
          ∧ Forall (λ c, isspace c = true) a ∧ Forall (λ c, isspace c = true) b)
  ∧ (∀ c, head (strip s) = Some c → isspace c = false)
  ∧ (∀ c, last (strip s) = Some c → isspace c = false).
Proof.
  unfold strip.
  destruct (drop_while_split isspace s) as (a & Hs & Ha).
  destruct (rstrip_split (lstrip s)) as (b & Hl & Hb).
  split; [|split].
  - exists a, b. split; [|done]. rewrite <- Hl. exact Hs.
  - intros c Hc. apply (drop_while_head isspace s).
    fold (lstrip s). rewrite Hl.
    destruct (rstrip (lstrip s)); [done|]. exact Hc.
  - apply rstrip_last.
Qed.

Lemma strip_idempotent (s : str) : strip (strip s) = strip s.
Proof.
  destruct (strip_outer s) as (_ & Hh & Hl).
  destruct (strip s) as [|c t] eqn:Hs; [done|].
  assert (Hc : isspace c = false) by (by apply Hh).
  unfold strip at 1, lstrip. cbn [drop_while]. rewrite Hc.
  unfold rstrip. destruct (reverse (c :: t)) as [|d r] eqn:Hr.
  - apply (f_equal reverse) in Hr. by rewrite reverse_involutive in Hr.
  - assert (Hd : isspace d = false).
    { apply Hl. rewrite <- head_reverse. by rewrite Hr. }
    cbn [drop_while]. rewrite Hd, <- Hr. apply reverse_involutive.
Qed.

(** X11.  [strip] removes white space from both ends and nothing else: the
    string is white space, then its stripped form, then white space; the
    stripped form neither starts nor ends with white space, and stripping it
    again changes nothing. *)
Theorem strip_removes_outer_whitespace (s : str) :
  (∃ a b, s = a ++ strip s ++ b
          ∧ Forall (λ c, isspace c = true) a ∧ Forall (λ c, isspace c = true) b)
  ∧ (∀ c, head (strip s) = Some c → isspace c = false)
  ∧ (∀ c, last (strip s) = Some c → isspace c = false)
  ∧ strip (strip s) = strip s.
Proof.
  destruct (strip_outer s) as (? & ? & ?).
  repeat split; try done. apply strip_idempotent.
Qed.

(** ** The size shown *)

Lemma round_half_even_mono a a' :
  a ≤ a' → round_half_even a 1048576 ≤ round_half_even a' 1048576.
Proof.
  intros Hle. destruct (Z.eq_dec a a') as [->|Hne]; [done|].
  unfold round_half_even.
  pose proof (Z.div_mod a 1048576 ltac:(lia)) as Ha.
  pose proof (Z.div_mod a' 1048576 ltac:(lia)) as Ha'.
  pose proof (Z.mod_pos_bound a 1048576 ltac:(lia)) as Hr.
  pose proof (Z.mod_pos_bound a' 1048576 ltac:(lia)) as Hr'.
  destruct (Z.ltb_spec (2 * (a mod 1048576)) 1048576),
    (Z.ltb_spec (2 * (a' mod 1048576)) 1048576),
    (Z.ltb_spec 1048576 (2 * (a mod 1048576))),
    (Z.ltb_spec 1048576 (2 * (a' mod 1048576)));
    destruct (Z.even (a / 1048576)), (Z.even (a' / 1048576)); lia.
Qed.

(** X12.  Below [2 ^ 53] bytes the size shown never decreases when the file
    grows. *)
Theorem shown_size_is_monotone n m :
  0 ≤ n → n ≤ m → m < 2 ^ 53 →
  hundredths (size_in_mb n) ≤ hundredths (size_in_mb m).
Proof.
  intros Hn Hnm Hm. rewrite !hundredths_size_in_mb by lia.
  apply round_half_even_mono. lia.
Qed.

(** X14.  An artifact of at most 5242 bytes, the empty file included, is
    announced as [0.00] MB; 5243 bytes are the first to show [0.01]. *)
Theorem small_files_show_zero n :
  0 ≤ n ≤ 5242 →
  format_2f (size_in_mb n) = u "0.00"
  ∧ format_2f (size_in_mb 5243) = u "0.01".
Proof.
  intros Hn. split; [|vm_compute; reflexivity].
  unfold format_2f. rewrite hundredths_size_in_mb by lia.
  assert (round_half_even (100 * n) 1048576 = 0) as ->.
  { unfold round_half_even.
    rewrite Z.mod_small, Z.div_small by lia.
    destruct (Z.ltb_spec (2 * (100 * n)) 1048576); lia. }
  vm_compute. reflexivity.
Qed.

(** ** Diagnostics and the caption's head line *)



Lemma startswith_three (a b c r : str) :
  startswith (a ++ b ++ c) (a ++ b ++ c ++ r) = true.
Proof. apply startswith_spec. exists r. by rewrite <- !app_assoc. Qed.

(** X15.  The caption a run sends begins with the head line
    [🌾 <b>Meta-Hybrid: <label></b>], where the label is the second argument
    as given, also when it is empty, and the default label only when the
    argument is absent. *)
Theorem caption_head_line w :
  reaches_post w = true →
  ∃ data cap,
    payloads (trace w) = [data]
    ∧ data !! u "caption" = Some (Some cap)
    ∧ (∀ label, argv w !! 2%nat = Some label →
         startswith (u "🌾 <b>Meta-Hybrid: " ++ label ++ u "</b>") cap = true)
    ∧ (argv w !! 2%nat = None →
         startswith (u "🌾 <b>Meta-Hybrid: New Yield / 新产物</b>") cap = true).
Proof.
  intros Hpost.
  destruct (payloads_of_run w Hpost) as (file_path & rest & n & _ & _ & Hp).
  exists (payload w file_path n), (caption w file_path n).
  split; [exact Hp|]. split; [apply payload_caption|].
  unfold caption. rewrite make_caption_flat. unfold event_label. split.
  - intros label ->. cbn [default]. apply startswith_three.
  - intros ->. cbn [default].
    assert (E : u "🌾 <b>Meta-Hybrid: New Yield / 新产物</b>"
                = u "🌾 <b>Meta-Hybrid: " ++ default_event_label ++ u "</b>")
      by (vm_compute; reflexivity).
    rewrite E. apply startswith_three.
Qed.

(** ** Instances *)

Lemma post_once_with_file_closed_witness :
  reaches_post w_timeout = true
  ∧ count_events is_post (trace w_timeout) = 1%nat
  ∧ count_events is_close (trace w_timeout) = 1%nat.
Proof.
  assert (H : reaches_post w_timeout = true) by (vm_compute; reflexivity).
  destruct (post_once_with_file_closed w_timeout) as (Hle & Hclose & _ & _).
  assert (Hone : count_events is_post (trace w_timeout) = 1%nat)
    by (vm_compute; reflexivity).
  split; [exact H|]. split; [exact Hone|]. rewrite Hclose. exact Hone.
Defined.


Lemma getsize_failure_escapes_witness :
  existsb is_getsize (trace w_vanished) = true
  ∧ getsize_result w_vanished = inl file_vanished
  ∧ isinstance_Exception file_vanished = true
  ∧ exit_status w_vanished = Uncaught file_vanished
  ∧ printed (trace w_vanished) = [].
Proof.
  assert (H : existsb is_getsize (trace w_vanished) = true)
    by (vm_compute; reflexivity).
  destruct (getsize_failure_escapes w_vanished file_vanished H eq_refl eq_refl)
    as (Hexit & Hprinted & _).
  exact (conj H (conj eq_refl (conj eq_refl (conj Hexit Hprinted)))).
Defined.


Lemma request_shape_witness :
  reaches_post w_ok = true
  ∧ ∃ data,
      List.filter is_post (trace w_ok)
      = [Post (u "https://api.telegram.org/bot" ++ u "123:abc" ++ u "/sendDocument")
           data {[ u "document" := u "output/meta-hybrid.zip" ]} 120]
      ∧ data !! u "chat_id" = Some (Some (u "-1001")).
Proof.
  assert (H : reaches_post w_ok = true) by (vm_compute; reflexivity).
  split; [exact H|].
  destruct (request_shape w_ok H)
    as (token & chat & file_path & rest & data & Ht & Hc & Hg & Hf & Hchat & _).
  assert (token = u "123:abc") as ->.
  { assert (E : environ w_ok !! u "TELEGRAM_BOT_TOKEN" = Some (u "123:abc"))
      by (vm_compute; reflexivity).
    rewrite E in Ht. by injection Ht. }
  assert (chat = u "-1001") as ->.
  { assert (E : environ w_ok !! u "TELEGRAM_CHAT_ID" = Some (u "-1001"))
      by (vm_compute; reflexivity).
    rewrite E in Hc. by injection Hc. }
  assert (file_path = u "output/meta-hybrid.zip") as ->.
  { unfold w_ok, sample_world in Hg. cbn [glob_result] in Hg. by injection Hg. }
  exists data. exact (conj Hf Hchat).
Defined.

Lemma topic_line_iff_thread_field_witness :
  reaches_post w_ok = true
  ∧ ∃ data, payloads (trace w_ok) = [data]
            ∧ is_Some (data !! u "message_thread_id").
Proof.
  assert (H : reaches_post w_ok = true) by (vm_compute; reflexivity).
  split; [exact H|].
  destruct (topic_line_iff_thread_field w_ok H) as (data & Hp & Hiff).
  exists data. split; [exact Hp|]. apply Hiff.
  apply (bool_decide_eq_true_1 (targeting_line w_ok ∈ printed (trace w_ok))).
  vm_compute. reflexivity.
Defined.

Lemma strip_removes_outer_whitespace_witness :
  head (strip (u "  7 ")) = Some 55%N ∧ isspace 55 = false.
Proof.
  assert (H : head (strip (u "  7 ")) = Some 55%N) by (vm_compute; reflexivity).
  destruct (strip_removes_outer_whitespace (u "  7 ")) as (_ & Hhead & _).
  exact (conj H (Hhead 55%N H)).
Defined.

Lemma shown_size_is_monotone_witness :
  0 ≤ 1 ∧ 1 ≤ 1048576 ∧ 1048576 < 2 ^ 53
  ∧ hundredths (size_in_mb 1) ≤ hundredths (size_in_mb 1048576).
Proof.
  assert (H1 : 0 ≤ 1) by lia. assert (H2 : 1 ≤ 1048576) by lia.
  assert (H3 : 1048576 < 2 ^ 53) by lia.
  exact (conj H1 (conj H2 (conj H3 (shown_size_is_monotone 1 1048576 H1 H2 H3)))).
Defined.

Lemma small_files_show_zero_witness :
  0 ≤ 0 ≤ 5242 ∧ format_2f (size_in_mb 0) = u "0.00".
Proof.
  assert (H : 0 ≤ 0 ≤ 5242) by lia.
  exact (conj H (proj1 (small_files_show_zero 0 H))).
Defined.

Lemma caption_head_line_witness :
  reaches_post w_ok = true
  ∧ argv w_ok !! 2%nat = None
  ∧ ∃ data cap,
      payloads (trace w_ok) = [data]
      ∧ data !! u "caption" = Some (Some cap)
      ∧ startswith (u "🌾 <b>Meta-Hybrid: New Yield / 新产物</b>") cap = true.
Proof.
  assert (H : reaches_post w_ok = true) by (vm_compute; reflexivity).
  destruct (caption_head_line w_ok H) as (data & cap & Hp & Hc & _ & Hdefault).
  split; [exact H|]. split; [reflexivity|].
  exists data, cap. exact (conj Hp (conj Hc (Hdefault eq_refl))).
Defined.

